(** * Session gate and save-game ownership of the game backend (server.js)

    A shallow embedding of the Express application of [src/server.js]:
    the JWT middleware [authenticateUser], the account routes
    (sign-up, login, logout, update-player), the save-game routes
    (save-progress, load-progress, delete-progress) and the generic
    error handler.

    The PostgreSQL tables are lists of rows threaded through every
    handler; a query that throws is an [inl] in the small state and
    error monad [M].  The libraries the server calls ([jsonwebtoken],
    [bcrypt]), the database's duplicate-key error and its reading of
    parameters into column values are the fields of an environment
    [Env]: the general theorems hold for all of them,
    and [Ref] is one executable instance on which the scenarios and
    the concrete runs are evaluated. *)

From Stdlib Require Import ZArith List String Ascii Bool Lia HexString.
Import ListNotations.
Open Scope string_scope.
Open Scope Z_scope.

(* ================================================================= *)
(** ** JSON values and JavaScript objects *)

#[warnings="-register-all"]
Inductive json : Type :=
| JNull
| JBool (b : bool)
| JNum (n : Z)
| JStr (s : string)
| JArr (items : list json)
| JObj (fields : list (string * json)).

(** Property read [o.k]; [None] is JavaScript's [undefined]. *)
Fixpoint obj_get (k : string) (fields : list (string * json)) : option json :=
  match fields with
  | [] => None
  | (k', v) :: rest => if String.eqb k k' then Some v else obj_get k rest
  end.

(** Property write, as the spread [{ ...o, k: v }] does it: an existing
    key keeps its place and takes the new value, a new key goes last. *)
Fixpoint obj_set (k : string) (v : json) (fields : list (string * json))
  : list (string * json) :=
  match fields with
  | [] => [(k, v)]
  | (k', v') :: rest =>
      if String.eqb k k' then (k', v) :: rest else (k', v') :: obj_set k v rest
  end.

(** Read along a path of keys. *)
Fixpoint json_get (path : list string) (j : json) : option json :=
  match path with
  | [] => Some j
  | k :: rest =>
      match j with
      | JObj fields =>
          match obj_get k fields with
          | Some v => json_get rest v
          | None => None
          end
      | _ => None
      end
  end.

(** Every string value that occurs somewhere in a JSON document. *)
Fixpoint json_strings (j : json) : list string :=
  match j with
  | JStr s => [s]
  | JArr items => flat_map json_strings items
  | JObj fields => flat_map (fun kv => let '(_, v) := kv in json_strings v) fields
  | _ => []
  end.

(* ================================================================= *)
(** ** Errors, responses, requests *)

(** A thrown JavaScript error: the properties the server reads
    ([name], [message], [status]) and the one it must not send
    ([stack]). *)
Record Error : Type := mkError {
  err_name : string;
  err_message : string;
  err_status : option Z;
  err_stack : string
}.

Record Response : Type := mkResponse {
  rsp_status : Z;
  rsp_body : json
}.

(** [res.json(body)]: the status defaults to 200. *)
Definition res_json (body : json) : Response := mkResponse 200 body.

(** [res.status(s).json(body)]. *)
Definition res_status_json (s : Z) (body : json) : Response := mkResponse s body.

(** The payload given to [jwt.sign], the object [jwt.verify] decodes
    and the identity the middleware stores in [req.user]. *)
Record Payload : Type := mkPayload {
  userId : Z;
  username : string
}.

(** Body of POST /save-progress, as the handler destructures it. *)
Record SaveBody : Type := mkSaveBody {
  b_userId : Z;
  b_storyId : Z;
  b_chapterId : Z;
  b_gameState : json;
  b_inventory : json;
  b_saveName : string
}.

(** The routes of the session and save-game core, with their bodies and
    route parameters.  The password of a login is whatever the body
    holds under [password]: any JSON value, or nothing ([None], that is
    [undefined]).  [progressId] is the text of the URL segment.  The
    other fields are taken well-typed for the columns they reach.
    The content routes (chapter, item, enemy) sit behind the same
    middleware and only read reference tables; they are left out, as
    is the final 404 route. *)
Inductive Call : Type :=
| SignUp (name password adventurerName : string)
| Login (name : string) (password : option json)
| Logout
| Game
| SaveProgress (body : SaveBody)
| LoadProgress
| DeleteProgress (progressId : string)
| UpdatePlayer (newAdventurerName : string).

(** A string sent as a JSON value. *)
Definition text (s : string) : option json := Some (JStr s).

Record Request : Type := mkRequest {
  authorization : option string;      (* req.headers.authorization *)
  user : option Payload;              (* req.user *)
  call : Call
}.

Definition request (auth : option string) (c : Call) : Request :=
  mkRequest auth None c.

Definition set_user (req : Request) (p : Payload) : Request :=
  mkRequest (authorization req) (Some p) (call req).

(** What a handler ends with: a response, or [next(err)]. *)
Inductive Outcome : Type :=
| Sent (r : Response)
| Next (e : Error).

(* ================================================================= *)
(** ** The database *)

Record UserRow : Type := mkUser {
  u_id : Z;
  u_username : string;
  u_password_hash : string;
  u_adventurer_name : string;
  u_token : option string
}.

Record ProgressRow : Type := mkProgress {
  p_id : Z;
  p_user_id : Z;
  p_story_id : Z;
  p_chapter_id : Z;
  p_game_state : json;
  p_inventory : json;
  p_save_name : string
}.

(** Modelled from the spec: the schema of the two tables is not under
    src/.  Ids are generated at creation from a per-table counter (the
    last value handed out), and usernames are unique. *)
Record DB : Type := mkDB {
  users : list UserRow;
  users_id_seq : Z;
  user_progress : list ProgressRow;
  user_progress_id_seq : Z
}.

Definition empty_db : DB := mkDB [] 0 [] 0.

(** A row as [SELECT *] hands it to JavaScript. *)
Definition user_fields (u : UserRow) : list (string * json) :=
  [ ("id", JNum (u_id u));
    ("username", JStr (u_username u));
    ("password_hash", JStr (u_password_hash u));
    ("adventurer_name", JStr (u_adventurer_name u));
    ("token", match u_token u with Some t => JStr t | None => JNull end) ].

Definition progress_json (p : ProgressRow) : json :=
  JObj [ ("id", JNum (p_id p));
         ("user_id", JNum (p_user_id p));
         ("story_id", JNum (p_story_id p));
         ("chapter_id", JNum (p_chapter_id p));
         ("game_state", p_game_state p);
         ("inventory", p_inventory p);
         ("save_name", JStr (p_save_name p)) ].

(* ================================================================= *)
(** ** State and error monad of the handlers *)

Definition M (A : Type) : Type := DB -> (Error + A) * DB.

Definition ret {A : Type} (a : A) : M A := fun db => (inr a, db).

Definition throw {A : Type} (e : Error) : M A := fun db => (inl e, db).

(** Awaiting a call that returns or throws without touching the store. *)
Definition lift {A : Type} (r : Error + A) : M A := fun db => (r, db).

Definition bind {A B : Type} (m : M A) (k : A -> M B) : M B :=
  fun db =>
    match m db with
    | (inr a, db') => k a db'
    | (inl e, db') => (inl e, db')
    end.

Notation "x <- m ;; k" := (bind m (fun x => k))
  (at level 61, m at next level, right associativity).
Notation "m ;;; k" := (bind m (fun _ => k))
  (at level 61, right associativity).

(** A route handler after its own [try]/[catch]: it always ends. *)
Definition Handler : Type := DB -> Outcome * DB.

(** [try { body } catch (err) { handler }]; writes made before the
    throw stay (the server opens no transaction). *)
Definition try_catch (body : M Outcome) (handler : Error -> Outcome) : Handler :=
  fun db =>
    match body db with
    | (inr o, db') => (o, db')
    | (inl e, db') => (handler e, db')
    end.

(** A middleware either answers ([inl]) or passes the request, possibly
    extended, to the next function of the route ([inr]). *)
Definition Middleware : Type := DB -> (Response + Request) * DB.

(** [app.METHOD(path, mw, handler)]. *)
Definition guarded (mw : Middleware) (handler : Request -> Handler) : Handler :=
  fun db =>
    match mw db with
    | (inl r, db') => (Sent r, db')
    | (inr req, db') => handler req db'
    end.

(* ================================================================= *)
(** ** The environment: libraries, secret, database errors *)

(** [jwt_sign payload key expiresIn now] is [jwt.sign(payload, key)]
    called at time [now], with the [expiresIn] option when there is
    one; [jwt_verify token key now] is [jwt.verify(token, key)], where
    a throw is an [inl] and the token may be [undefined].
    [bcrypt_hash] and [bcrypt_compare] are [bcrypt.hash(password, 10)]
    (the salt is the library's business) and
    [bcrypt.compare(password, hash)], which is handed whatever the body
    held as password and rejects ([inl]) what it cannot compare.
    [now] is the clock the library reads when it is called.
    [unique_violation] is the error [pool.query] throws when an INSERT
    breaks the uniqueness of usernames.

    The column types belong to the schema, which is not under src/,
    so what the database makes of a parameter is a parameter here.
    [id_of_text] is the database reading the text of [progressId] as a
    value of the id column of [user_progress], and [progress_payloads]
    is the database taking the six parameters of the INSERT of
    save-progress as the driver wrote them: it gives the two payloads
    as the columns will hold them.  Either is the error [pool.query]
    throws ([inl]) when the database refuses the value. *)
Record Env : Type := mkEnv {
  SECRET_KEY : string;
  jwt_sign : Payload -> string -> option Z -> Z -> string;
  jwt_verify : option string -> string -> Z -> Error + Payload;
  bcrypt_hash : string -> string;
  bcrypt_compare : option json -> string -> Error + bool;
  unique_violation : Error;
  id_of_text : string -> Error + Z;
  progress_payloads : SaveBody -> Error + (json * json)
}.

(* ================================================================= *)
(** ** Queries *)

(** Row returned by the INSERT of sign-up:
    [RETURNING id, username, adventurer_name]. *)
Record NewUser : Type := mkNewUser {
  nu_id : Z;
  nu_username : string;
  nu_adventurer_name : string
}.

Definition new_user_json (u : NewUser) : json :=
  JObj [ ("id", JNum (nu_id u));
         ("username", JStr (nu_username u));
         ("adventurer_name", JStr (nu_adventurer_name u)) ].

Definition username_taken (name : string) (db : DB) : bool :=
  existsb (fun u => String.eqb (u_username u) name) (users db).

(** INSERT INTO users (username, password_hash, adventurer_name)
    VALUES ($1, $2, $3) RETURNING id, username, adventurer_name.
    The id is drawn from the counter before the uniqueness check, so a
    refused insert still uses one up. *)
Definition insert_user (dup : Error) (name hash adv : string) : M NewUser :=
  fun db =>
    let i := users_id_seq db + 1 in
    if username_taken name db then
      (inl dup, mkDB (users db) i (user_progress db) (user_progress_id_seq db))
    else
      (inr (mkNewUser i name adv),
       mkDB (users db ++ [mkUser i name hash adv None]) i
            (user_progress db) (user_progress_id_seq db)).

Definition with_token (t : option string) (u : UserRow) : UserRow :=
  mkUser (u_id u) (u_username u) (u_password_hash u) (u_adventurer_name u) t.

Definition with_adventurer_name (a : string) (u : UserRow) : UserRow :=
  mkUser (u_id u) (u_username u) (u_password_hash u) a (u_token u).

(** UPDATE users SET token = $1 WHERE id = $2 (and SET token = NULL). *)
Definition update_token (t : option string) (i : Z) : M unit :=
  fun db =>
    (inr tt,
     mkDB (map (fun u => if u_id u =? i then with_token t u else u) (users db))
          (users_id_seq db) (user_progress db) (user_progress_id_seq db)).

(** SELECT * FROM users WHERE username = $1. *)
Definition select_users_by_username (name : string) : M (list UserRow) :=
  fun db => (inr (filter (fun u => String.eqb (u_username u) name) (users db)), db).

(** UPDATE users SET adventurer_name = $1 WHERE id = $2
    RETURNING id, adventurer_name. *)
Definition update_adventurer_name (a : string) (i : Z) : M (list (Z * string)) :=
  fun db =>
    (inr (map (fun u => (u_id u, a)) (filter (fun u => u_id u =? i) (users db))),
     mkDB (map (fun u => if u_id u =? i then with_adventurer_name a u else u) (users db))
          (users_id_seq db) (user_progress db) (user_progress_id_seq db)).

(** INSERT INTO user_progress (user_id, story_id, chapter_id, game_state,
    inventory, save_name) VALUES ($1, ..., $6) RETURNING id, save_name.
    [payloads] is what the database made of the parameters: when it
    refused them the query throws and no row is built. *)
Definition insert_progress (payloads : Error + (json * json))
    (owner story chapter : Z) (name : string) : M (Z * string) :=
  fun db =>
    match payloads with
    | inl refused => (inl refused, db)
    | inr (state, inv) =>
        let i := user_progress_id_seq db + 1 in
        (inr (i, name),
         mkDB (users db) (users_id_seq db)
              (user_progress db ++ [mkProgress i owner story chapter state inv name]) i)
    end.

(** ORDER BY id DESC, by insertion. *)
Fixpoint insert_desc (r : ProgressRow) (l : list ProgressRow) : list ProgressRow :=
  match l with
  | [] => [r]
  | x :: rest => if p_id x <=? p_id r then r :: l else x :: insert_desc r rest
  end.

Definition order_by_id_desc (l : list ProgressRow) : list ProgressRow :=
  fold_right insert_desc [] l.

(** SELECT * FROM user_progress WHERE user_id = $1 ORDER BY id DESC LIMIT 1. *)
Definition select_latest_progress (owner : Z) : M (list ProgressRow) :=
  fun db =>
    (inr (firstn 1 (order_by_id_desc
                      (filter (fun r => p_user_id r =? owner) (user_progress db)))),
     db).

(** The predicate of the DELETE: [id = $1 AND user_id = $2]. *)
Definition delete_matches (pid owner : Z) (r : ProgressRow) : bool :=
  (p_id r =? pid) && (p_user_id r =? owner).

(** DELETE FROM user_progress WHERE id = $1 AND user_id = $2
    RETURNING id, save_name.  [pid] is the database's reading of the
    first parameter: when it is not a value of the id column the query
    throws and deletes nothing. *)
Definition delete_progress (pid : Error + Z) (owner : Z) : M (list (Z * string)) :=
  fun db =>
    match pid with
    | inl refused => (inl refused, db)
    | inr i =>
        (inr (map (fun r => (p_id r, p_save_name r))
                  (filter (delete_matches i owner) (user_progress db))),
         mkDB (users db) (users_id_seq db)
              (filter (fun r => negb (delete_matches i owner r)) (user_progress db))
              (user_progress_id_seq db))
    end.

(* ================================================================= *)
(** ** The middleware and the routes *)

(** [s.split(sep)] for a one-character separator: never empty. *)
Fixpoint split_on (sep : ascii) (s : string) : list string :=
  match s with
  | EmptyString => [EmptyString]
  | String c rest =>
      if Ascii.eqb c sep then EmptyString :: split_on sep rest
      else match split_on sep rest with
           | w :: ws => String c w :: ws
           | [] => [String c EmptyString]
           end
  end.

(** Reading a property of [undefined] throws a TypeError. *)
Definition type_error : Error :=
  mkError "TypeError" "Cannot read properties of undefined" None "".

(** [req.headers.authorization.split(' ')[1]]: throws without the
    header, is [undefined] when the header has no second word. *)
Definition header_token (req : Request) : Error + option string :=
  match authorization req with
  | None => inl type_error
  | Some h => inr (nth_error (split_on " "%char h) 1)
  end.

(** [req.user]'s properties are read inside the handlers' [try]. *)
Definition req_user (req : Request) : M Payload :=
  match user req with
  | Some p => ret p
  | None => throw type_error
  end.

Definition error_body (msg : string) : json := JObj [("error", JStr msg)].

Definition token_expired : Response := res_status_json 401 (error_body "Token expired").
Definition unauthorized : Response := res_status_json 401 (error_body "Unauthorized").
Definition invalid_login : Response :=
  res_status_json 401 (error_body "Invalid username or password").
Definition internal_server_error : Response :=
  res_status_json 500 (error_body "Internal Server Error").
Definition no_saved_game : Response :=
  res_status_json 404 (error_body "No saved game found.").
Definition not_found_or_unauthorized : Response :=
  res_status_json 404 (error_body "Saved game not found or unauthorized to delete.").

(** [err.status || 500]: [undefined] and [0] are falsy. *)
Definition status_or_500 (s : option Z) : Z :=
  match s with
  | Some n => if n =? 0 then 500 else n
  | None => 500
  end.

(** The generic error handler: sends [err.message] and the status. *)
Definition error_handler (err : Error) : Response :=
  let status := status_or_500 (err_status err) in
  let message := err_message err in
  res_status_json status
    (JObj [("error", JObj [("message", JStr message); ("status", JNum status)])]).

Section Server.

Variable E : Env.

(** The token as verification sees it: the second word of the header,
    checked by [jwt.verify] against [SECRET_KEY]. *)
Definition verified (req : Request) (now : Z) : Error + Payload :=
  match header_token req with
  | inl err => inl err
  | inr token => jwt_verify E token (SECRET_KEY E) now
  end.

(** The middleware [authenticateUser].  On success [req.user] is set and
    [next()] is called: the request goes on ([inr]); in the [catch] the
    middleware answers itself ([inl]).  It runs no query. *)
Definition authenticateUser (req : Request) (now : Z) : Middleware :=
  fun db =>
    match verified req now with
    | inr decoded =>
        (inr (set_user req (mkPayload (userId decoded) (username decoded))), db)
    | inl err =>
        if String.eqb (err_name err) "TokenExpiredError"
        then (inl token_expired, db)
        else (inl unauthorized, db)
    end.

(** POST /sign-up *)
Definition sign_up (name password adventurerName : string) (now : Z) : Handler :=
  try_catch
    (let hashedPassword := bcrypt_hash E password in
     new <- insert_user (unique_violation E) name hashedPassword adventurerName ;;
     let token :=
       jwt_sign E (mkPayload (nu_id new) (nu_username new)) (SECRET_KEY E) None now in
     update_token (Some token) (nu_id new) ;;;
     ret (Sent (res_json
       (JObj [("user", JObj [("user", new_user_json new); ("token", JStr token)])]))))
    Next.

(** POST /login *)
Definition login (name : string) (password : option json) (now : Z) : Handler :=
  try_catch
    (rows <- select_users_by_username name ;;
     match rows with
     | [] => ret (Sent invalid_login)
     | found :: _ =>
         passwordMatch <- lift (bcrypt_compare E password (u_password_hash found)) ;;
         if negb passwordMatch
         then ret (Sent invalid_login)
         else
           let newToken :=
             jwt_sign E (mkPayload (u_id found) (u_username found))
                      (SECRET_KEY E) None now in
           update_token (Some newToken) (u_id found) ;;;
           ret (Sent (res_json
             (JObj [("user",
                     JObj (obj_set "token" (JStr newToken) (user_fields found)))])))
     end)
    Next.

(** POST /logout *)
Definition logout (req : Request) : Handler :=
  try_catch
    (u <- req_user req ;;
     update_token None (userId u) ;;;
     ret (Sent (res_json (JObj [("message", JStr "Logout successful")]))))
    (fun _ => Sent internal_server_error).

(** GET /game *)
Definition game (req : Request) : Handler :=
  try_catch
    (u <- req_user req ;;
     ret (Sent (res_json
       (JObj [("userId", JNum (userId u)); ("username", JStr (username u))]))))
    Next.

(** POST /save-progress: [userId] is read from [req.body]. *)
Definition save_progress (body : SaveBody) (req : Request) : Handler :=
  try_catch
    (saved <- insert_progress (progress_payloads E body)
                              (b_userId body) (b_storyId body) (b_chapterId body)
                              (b_saveName body) ;;
     ret (Sent (res_status_json 200
       (JObj [("savedProgress",
               JObj [("id", JNum (fst saved)); ("save_name", JStr (snd saved))])]))))
    (fun _ => Sent internal_server_error).

(** GET /load-progress *)
Definition load_progress (req : Request) : Handler :=
  try_catch
    (u <- req_user req ;;
     rows <- select_latest_progress (userId u) ;;
     match rows with
     | [] => ret (Sent no_saved_game)
     | savedGameData :: _ =>
         ret (Sent (res_status_json 200
           (JObj [("savedGameData", progress_json savedGameData)])))
     end)
    (fun _ => Sent internal_server_error).

(** DELETE /delete-progress/:progressId *)
Definition delete_progress_route (progressId : string) (req : Request) : Handler :=
  try_catch
    (u <- req_user req ;;
     rows <- delete_progress (id_of_text E progressId) (userId u) ;;
     if negb (Nat.eqb (List.length rows) 1)
     then ret (Sent not_found_or_unauthorized)
     else ret (Sent (res_status_json 200
            (JObj [("message", JStr "Saved game deleted successfully.")]))))
    (fun _ => Sent internal_server_error).

(** POST /update-player *)
Definition update_player (newAdventurerName : string) (req : Request) : Handler :=
  try_catch
    (u <- req_user req ;;
     _updated <- update_adventurer_name newAdventurerName (userId u) ;;
     ret (Sent (res_json
       (JObj [("message", JStr "Saved Adventurer Name successfully.")]))))
    Next.

(** The route table. *)
Definition route (req : Request) (now : Z) : Handler :=
  match call req with
  | SignUp name password adventurerName => sign_up name password adventurerName now
  | Login name password => login name password now
  | Logout => guarded (authenticateUser req now) logout
  | Game => guarded (authenticateUser req now) game
  | SaveProgress body => guarded (authenticateUser req now) (save_progress body)
  | LoadProgress => guarded (authenticateUser req now) load_progress
  | DeleteProgress progressId =>
      guarded (authenticateUser req now) (delete_progress_route progressId)
  | UpdatePlayer newAdventurerName =>
      guarded (authenticateUser req now) (update_player newAdventurerName)
  end.

(** One request served at time [now]: whatever reaches [next(err)]
    is answered by the generic error handler. *)
Definition app (req : Request) (now : Z) (db : DB) : Response * DB :=
  match route req now db with
  | (Sent r, db') => (r, db')
  | (Next e, db') => (error_handler e, db')
  end.

End Server.

(* ================================================================= *)
(** ** A reference environment, to run the server on concrete requests *)

(** Stand-ins for the libraries, executable and symbolic rather than
    cryptographic.  A token is six dot-separated segments: a marker, the
    user id, the username, the issue time, the expiry (or [none]) and the
    signing key, with strings in hexadecimal so that no segment holds a
    dot or a space.  Times are in seconds. *)
Module Ref.

Definition hex_digit (n : N) : ascii :=
  match n with
  | 0 => "0" | 1 => "1" | 2 => "2" | 3 => "3" | 4 => "4" | 5 => "5"
  | 6 => "6" | 7 => "7" | 8 => "8" | 9 => "9" | 10 => "a" | 11 => "b"
  | 12 => "c" | 13 => "d" | 14 => "e" | _ => "f"
  end%N%char.

Fixpoint hex_of_string (s : string) : string :=
  match s with
  | EmptyString => EmptyString
  | String c rest =>
      let n := N_of_ascii c in
      String (hex_digit (n / 16)) (String (hex_digit (n mod 16)) (hex_of_string rest))
  end.

Fixpoint string_of_hex (s : string) : option string :=
  match s with
  | EmptyString => Some EmptyString
  | String a (String b rest) =>
      match HexString.ascii_to_digit a, HexString.ascii_to_digit b, string_of_hex rest with
      | Some x, Some y, Some t => Some (String (ascii_of_N (16 * x + y)) t)
      | _, _, _ => None
      end
  | String _ EmptyString => None
  end.

Definition Z_of_segment (s : string) : option Z :=
  let z := HexString.to_Z s in
  if String.eqb (HexString.of_Z z) s then Some z else None.

Definition expiry_segment (e : option Z) : string :=
  match e with
  | Some t => HexString.of_Z t
  | None => "none"
  end.

Definition expiry_of_segment (s : string) : option (option Z) :=
  if String.eqb s "none" then Some None
  else option_map Some (Z_of_segment s).

Definition sign (p : Payload) (key : string) (expiresIn : option Z) (now : Z) : string :=
  "J." ++ HexString.of_Z (userId p)
  ++ "." ++ hex_of_string (username p)
  ++ "." ++ HexString.of_Z now
  ++ "." ++ expiry_segment (option_map (fun d => now + d) expiresIn)
  ++ "." ++ hex_of_string key.

Definition jwt_error (msg : string) : Error := mkError "JsonWebTokenError" msg None "".
Definition expired_error : Error := mkError "TokenExpiredError" "jwt expired" None "".

(** The decoded segments: payload and expiry. *)
Definition decode (token : string) : option (Payload * option Z * string) :=
  match split_on "."%char token with
  | [ _; uid; name; _; exp; sig ] =>
      match Z_of_segment uid, string_of_hex name, expiry_of_segment exp with
      | Some i, Some n, Some e => Some (mkPayload i n, e, sig)
      | _, _, _ => None
      end
  | _ => None
  end.

Definition verify (token : option string) (key : string) (now : Z) : Error + Payload :=
  match token with
  | None => inl (jwt_error "jwt must be provided")
  | Some t =>
      match decode t with
      | None => inl (jwt_error "jwt malformed")
      | Some (p, e, sig) =>
          if negb (String.eqb sig (hex_of_string key))
          then inl (jwt_error "invalid signature")
          else match e with
               | Some t => if t <=? now then inl expired_error else inr p
               | None => inr p
               end
      end
  end.

Definition hash (password : string) : string := "$2b$10$" ++ hex_of_string password.

Definition bcrypt_error (msg : string) : Error := mkError "Error" msg None "".

(** [bcrypt.compare] rejects a missing password and one that is not a
    string. *)
Definition compare (password : option json) (stored : string) : Error + bool :=
  match password with
  | None | Some JNull => inl (bcrypt_error "data and hash arguments required")
  | Some (JStr s) => inr (String.eqb (hash s) stored)
  | Some _ => inl (bcrypt_error "data and hash must be strings")
  end.

Definition duplicate_key : Error :=
  mkError "error"
          "duplicate key value violates unique constraint users_username_key"
          None
          "error: duplicate key value violates unique constraint users_username_key at Parser.parseErrorMessage".

(** The stand-in schema: ids and the three numbers of a save are
    32-bit integers, the two payloads are JSON columns. *)
Definition pg_error (msg : string) : Error := mkError "error" msg None "".

Definition digit (c : ascii) : option Z :=
  let n := Z.of_N (N_of_ascii c) in
  if (48 <=? n) && (n <=? 57) then Some (n - 48) else None.

Fixpoint digits (s : string) (acc : Z) : option Z :=
  match s with
  | EmptyString => Some acc
  | String c rest =>
      match digit c with
      | Some d => digits rest (10 * acc + d)
      | None => None
      end
  end.

Definition decimal (s : string) : option Z :=
  match s with
  | EmptyString => None
  | String "-"%char EmptyString => None
  | String "-"%char rest => option_map Z.opp (digits rest 0)
  | _ => digits s 0
  end.

Definition int4 (z : Z) : bool := (-2147483648 <=? z) && (z <=? 2147483647).

Definition read_id (s : string) : Error + Z :=
  match decimal s with
  | None => inl (pg_error "invalid input syntax for type integer")
  | Some z => if int4 z then inr z else inl (pg_error "value out of range for type integer")
  end.

(** A payload as the JSON column holds it after the driver wrote it: an
    object goes as its JSON text; an array goes as an array literal,
    which reads back as the empty object when the array is empty and is
    not JSON otherwise; a string goes as it is and the stand-in takes
    none for JSON text. *)
Definition jsonb_of_param (j : json) : Error + json :=
  match j with
  | JArr [] => inr (JObj [])
  | JArr _ | JStr _ => inl (pg_error "invalid input syntax for type json")
  | _ => inr j
  end.

Definition read_payloads (body : SaveBody) : Error + (json * json) :=
  if int4 (b_userId body) && int4 (b_storyId body) && int4 (b_chapterId body)
  then match jsonb_of_param (b_gameState body), jsonb_of_param (b_inventory body) with
       | inr state, inr inv => inr (state, inv)
       | inl e, _ => inl e
       | _, inl e => inl e
       end
  else inl (pg_error "value out of range for type integer").

Definition env : Env :=
  mkEnv "s3cret" sign verify hash compare duplicate_key read_id read_payloads.

(** Serving a list of timed requests in order, collecting the responses. *)
Fixpoint serve (reqs : list (Request * Z)) (db : DB) : list Response * DB :=
  match reqs with
  | [] => ([], db)
  | (req, now) :: rest =>
      let '(r, db1) := app env req now db in
      let '(rs, db2) := serve rest db1 in
      (r :: rs, db2)
  end.

Definition bearer (token : string) : option string := Some ("Bearer " ++ token).

(** A running scenario: astra signs up at time 1000 and gets the first
    token; then she logs out, or logs in again at time 2000. *)
Definition astra_sign_up : Request := request None (SignUp "astra" "pw1" "Zel").

Definition astra_token : string := sign (mkPayload 1 "astra") "s3cret" None 1000.

Definition second_token : string := sign (mkPayload 1 "astra") "s3cret" None 2000.

(** A token signed at time 0 with [expiresIn] of 60 seconds. *)
Definition short_token : string := sign (mkPayload 1 "astra") "s3cret" (Some 60) 0.

Definition after_sign_up : DB := snd (serve [(astra_sign_up, 1000)] empty_db).

Definition after_logout : DB :=
  snd (serve [(request (bearer astra_token) Logout, 1001)] after_sign_up).

Definition after_relogin : DB :=
  snd (serve [(request None (Login "astra" (text "pw1")), 2000)] after_sign_up).

(** A second player, bryn, with id 2 and one save, made by herself. *)
Definition bryn_token : string := sign (mkPayload 2 "bryn") "s3cret" None 1100.

Definition bryn_body (slot : string) : SaveBody :=
  mkSaveBody 2 1 3 (JObj [("hp", JNum 9)]) (JObj [("lamp", JNum 1)]) slot.

Definition two_players : DB :=
  snd (serve [(request None (SignUp "bryn" "pw2" "Bee"), 1100);
              (request (bearer bryn_token) (SaveProgress (bryn_body "bryn-1")), 1200)]
             after_sign_up).

(** Then astra saves once and bryn a second time. *)
Definition astra_body (slot : string) : SaveBody :=
  mkSaveBody 1 1 2 (JObj [("hp", JNum 4)]) (JObj []) slot.

Definition three_saves : DB :=
  snd (serve [(request (bearer astra_token) (SaveProgress (astra_body "astra-1")), 1300);
              (request (bearer bryn_token) (SaveProgress (bryn_body "bryn-2")), 1400)]
             two_players).

(** astra, authenticated, sends bryn's id as the [userId] of the body. *)
Definition planted_save : Request :=
  request (bearer astra_token)
          (SaveProgress (mkSaveBody 2 1 2 JNull JNull "planted")).

End Ref.

(* ================================================================= *)
(** ** Vocabulary of the statements *)

(** The middleware lets [req] through at time [now], over the stored
    state [db], with identity [p] in [req.user]. *)
Definition accepts (E : Env) (req : Request) (now : Z) (db : DB) (p : Payload) : Prop :=
  fst (authenticateUser E req now db) = inr (set_user req p).

(** The routes registered behind [authenticateUser]. *)
Definition protected (c : Call) : bool :=
  match c with
  | SignUp _ _ _ | Login _ _ => false
  | _ => true
  end.

(** The token column of the rows with a given id. *)
Definition stored_tokens (i : Z) (db : DB) : list (option string) :=
  map u_token (filter (fun u => u_id u =? i) (users db)).

(** [rows[0]] of the login query. *)
Definition find_user (name : string) (db : DB) : option UserRow :=
  hd_error (filter (fun u => String.eqb (u_username u) name) (users db)).

(** The saves of one owner. *)
Definition owned_by (owner : Z) (db : DB) : list ProgressRow :=
  filter (fun r => p_user_id r =? owner) (user_progress db).



(** A user row and its image under a write that touches only the
    adventurer name of the rows with id [i]. *)
Definition only_name_changed (i : Z) (a : string) (u u' : UserRow) : Prop :=
  u_id u' = u_id u
  /\ u_username u' = u_username u
  /\ u_password_hash u' = u_password_hash u
  /\ u_token u' = u_token u
  /\ (u_id u = i -> u_adventurer_name u' = a)
  /\ (u_id u <> i -> u' = u).

(** Ids come from the counter: no save has an id above it. *)
Definition ids_below_seq (db : DB) : Prop :=
  forall r, In r (user_progress db) -> p_id r <= user_progress_id_seq db.

(** A word: a string with no space in it. *)
Fixpoint no_space (s : string) : bool :=
  match s with
  | EmptyString => true
  | String c rest => negb (Ascii.eqb c " "%char) && no_space rest
  end.

(** A user row and its image under a write that touches only the token
    of the rows with id [i]. *)
Definition only_token_changed (i : Z) (t : option string) (u u' : UserRow) : Prop :=
  u_id u' = u_id u
  /\ u_username u' = u_username u
  /\ u_password_hash u' = u_password_hash u
  /\ u_adventurer_name u' = u_adventurer_name u
  /\ (u_id u = i -> u_token u' = t)
  /\ (u_id u <> i -> u' = u).

(** What the generated ids and the uniqueness of usernames give: no two
    users share a username or an id, no two saves share an id, and no
    id is above its counter. *)
Definition store_ok (db : DB) : Prop :=
  NoDup (map u_username (users db))
  /\ NoDup (map u_id (users db))
  /\ (forall u, In u (users db) -> u_id u <= users_id_seq db)
  /\ NoDup (map p_id (user_progress db))
  /\ ids_below_seq db.

(** The state after a list of timed requests, served in order. *)
Fixpoint run (E : Env) (reqs : list (Request * Z)) (db : DB) : DB :=
  match reqs with
  | [] => db
  | (req, now) :: rest => run E rest (snd (app E req now db))
  end.

(* ================================================================= *)
(** ** The middleware *)

Section GateFacts.

Variable E : Env.

Lemma payload_eta (p : Payload) : mkPayload (userId p) (username p) = p.
Proof. destruct p; reflexivity. Qed.

Lemma authenticateUser_keeps_db (req : Request) (now : Z) (db : DB) :
  snd (authenticateUser E req now db) = db.
Proof.
  unfold authenticateUser.
  destruct (verified E req now) as [err | decoded]; simpl; [|reflexivity].
  destruct (String.eqb (err_name err) "TokenExpiredError"); reflexivity.
Qed.

Lemma authenticateUser_any_db (req : Request) (now : Z) (db1 db2 : DB) :
  fst (authenticateUser E req now db1) = fst (authenticateUser E req now db2).
Proof.
  unfold authenticateUser.
  destruct (verified E req now) as [err | decoded]; simpl; [|reflexivity].
  destruct (String.eqb (err_name err) "TokenExpiredError"); reflexivity.
Qed.

Lemma accepts_run (req : Request) (now : Z) (db : DB) (p : Payload) :
  accepts E req now db p ->
  authenticateUser E req now db = (inr (set_user req p), db).
Proof.
  intros H. unfold accepts in H.
  pose proof (authenticateUser_keeps_db req now db) as K.
  destruct (authenticateUser E req now db) as [d db']; simpl in *; congruence.
Qed.

Lemma accepts_iff_verified (req : Request) (now : Z) (db : DB) (p : Payload) :
  accepts E req now db p <-> verified E req now = inr p.
Proof.
  unfold accepts, authenticateUser. split.
  - destruct (verified E req now) as [err | decoded]; simpl.
    + destruct (String.eqb (err_name err) "TokenExpiredError"); discriminate.
    + intros H. unfold set_user in H. injection H as H.
      rewrite payload_eta in H. congruence.
  - intros ->. simpl. rewrite payload_eta. reflexivity.
Qed.

Lemma rejected_expired (req : Request) (now : Z) (db : DB) (e : Error) :
  verified E req now = inl e ->
  err_name e = "TokenExpiredError" ->
  authenticateUser E req now db = (inl token_expired, db).
Proof.
  intros Hv Hn. unfold authenticateUser. rewrite Hv, Hn. reflexivity.
Qed.

(** A protected route whose request the middleware lets through runs
    its handler on the request with [req.user] set. *)
Lemma guarded_accepts (req : Request) (now : Z) (db : DB) (p : Payload)
    (handler : Request -> Handler) :
  accepts E req now db p ->
  guarded (authenticateUser E req now) handler db = handler (set_user req p) db.
Proof.
  intros H. unfold guarded. rewrite (accepts_run _ _ _ _ H). reflexivity.
Qed.

End GateFacts.

(** C9.  The middleware's decision and the identity it attaches depend
    on the request (its Authorization header), the secret and the time
    only: over any two stored states, whatever the users' token column
    holds, it gives the same answer, and it leaves the state as it was. *)
Theorem gate_decision_ignores_store (E : Env) (req : Request) (now : Z) (db1 db2 : DB) :
  fst (authenticateUser E req now db1) = fst (authenticateUser E req now db2)
  /\ snd (authenticateUser E req now db1) = db1
  /\ (forall p, accepts E req now db1 p <-> accepts E req now db2 p).
Proof.
  split; [apply authenticateUser_any_db|].
  split; [apply authenticateUser_keeps_db|].
  intros p. unfold accepts.
  rewrite (authenticateUser_any_db E req now db1 db2). tauto.
Qed.

(** C1, as the code has it.  The middleware accepts a request exactly
    when [jwt.verify] accepts the second word of its Authorization
    header under the secret (signature and expiry); the token stored on
    the user's row is not consulted, so serving any other request in
    between (a logout, a new login) does not change the answer. *)
Theorem gate_accepts_iff_token_verifies
    (E : Env) (req : Request) (now : Z) (db : DB) (p : Payload) :
  (accepts E req now db p <->
   exists h, authorization req = Some h
             /\ jwt_verify E (nth_error (split_on " "%char h) 1) (SECRET_KEY E) now = inr p)
  /\ (forall other t, accepts E req now (snd (app E other t db)) p <-> accepts E req now db p).
Proof.
  split.
  - rewrite accepts_iff_verified. unfold verified, header_token.
    destruct (authorization req) as [h|].
    + split.
      * intros H. exists h. split; [reflexivity | exact H].
      * intros (h' & Hh & Hv). injection Hh as <-. exact Hv.
    + split; [discriminate|]. intros (h' & Hh & _). discriminate.
  - intros other t. rewrite !accepts_iff_verified. tauto.
Qed.

(** C1, counterexample.  The token issued at sign-up keeps passing the
    middleware after the logout that clears the stored token, and after
    the second login that stores another token. *)
Lemma revoked_token_still_accepted :
  json_get ["user"; "token"] (rsp_body (fst (app Ref.env Ref.astra_sign_up 1000 empty_db)))
  = Some (JStr Ref.astra_token)
  /\ stored_tokens 1 Ref.after_logout = [None]
  /\ app Ref.env (request (Ref.bearer Ref.astra_token) Game) 1002 Ref.after_logout
     = (res_json (JObj [("userId", JNum 1); ("username", JStr "astra")]), Ref.after_logout)
  /\ stored_tokens 1 Ref.after_relogin = [Some Ref.second_token]
  /\ Ref.second_token <> Ref.astra_token
  /\ app Ref.env (request (Ref.bearer Ref.astra_token) Game) 2001 Ref.after_relogin
     = (res_json (JObj [("userId", JNum 1); ("username", JStr "astra")]), Ref.after_relogin).
Proof.
  repeat split; try (vm_compute; reflexivity).
  vm_compute. discriminate.
Qed.

(* ================================================================= *)
(** ** The account routes *)

Section AccountFacts.

Variable E : Env.

(** Sign-up with a free username: the row is inserted, the token is
    signed over the new id and the username with no expiry option,
    stored, and sent with the three returned columns. *)
Lemma sign_up_fresh (name password adv : string) (now : Z) (db : DB) :
  username_taken name db = false ->
  let i := users_id_seq db + 1 in
  let token := jwt_sign E (mkPayload i name) (SECRET_KEY E) None now in
  sign_up E name password adv now db
  = (Sent (res_json (JObj [("user", JObj [("user", new_user_json (mkNewUser i name adv));
                                          ("token", JStr token)])])),
     mkDB (map (fun u => if u_id u =? i then with_token (Some token) u else u)
               (users db ++ [mkUser i name (bcrypt_hash E password) adv None]))
          i (user_progress db) (user_progress_id_seq db)).
Proof.
  intros H. unfold sign_up, try_catch, bind, insert_user, update_token, ret.
  rewrite H. reflexivity.
Qed.

(** Sign-up with a taken username: the INSERT throws, nothing is
    written to the rows, and the error goes to [next]. *)
Lemma sign_up_taken (name password adv : string) (now : Z) (db : DB) :
  username_taken name db = true ->
  sign_up E name password adv now db
  = (Next (unique_violation E),
     mkDB (users db) (users_id_seq db + 1) (user_progress db) (user_progress_id_seq db)).
Proof.
  intros H. unfold sign_up, try_catch, bind, insert_user.
  rewrite H. reflexivity.
Qed.

Lemma login_unknown (name : string) (password : option json) (now : Z) (db : DB) :
  find_user name db = None ->
  login E name password now db = (Sent invalid_login, db).
Proof.
  unfold find_user, login, try_catch, bind, select_users_by_username, ret.
  destruct (filter _ (users db)); [reflexivity | discriminate].
Qed.

Lemma login_wrong_password
    (name : string) (password : option json) (now : Z) (db : DB) (u : UserRow) :
  find_user name db = Some u ->
  bcrypt_compare E password (u_password_hash u) = inr false ->
  login E name password now db = (Sent invalid_login, db).
Proof.
  unfold find_user, login, try_catch, bind, lift, select_users_by_username, ret.
  destruct (filter _ (users db)) as [|found rest]; [discriminate|].
  simpl. intros H Hc. injection H as ->. rewrite Hc. reflexivity.
Qed.

(** When [bcrypt.compare] throws, the error goes to [next]; this
    happens only once a row was found. *)
Lemma login_throws
    (name : string) (password : option json) (now : Z) (db : DB) (u : UserRow) (e : Error) :
  find_user name db = Some u ->
  bcrypt_compare E password (u_password_hash u) = inl e ->
  login E name password now db = (Next e, db).
Proof.
  unfold find_user, login, try_catch, bind, lift, select_users_by_username, ret.
  destruct (filter _ (users db)) as [|found rest]; [discriminate|].
  simpl. intros H Hc. injection H as ->. rewrite Hc. reflexivity.
Qed.

(** A successful login answers with every column of the row read by
    [SELECT *], the token column replaced by the new token. *)
Lemma login_success
    (name : string) (password : option json) (now : Z) (db : DB) (u : UserRow) :
  find_user name db = Some u ->
  bcrypt_compare E password (u_password_hash u) = inr true ->
  let token := jwt_sign E (mkPayload (u_id u) (u_username u)) (SECRET_KEY E) None now in
  login E name password now db
  = (Sent (res_json (JObj [("user", JObj (obj_set "token" (JStr token) (user_fields u)))])),
     mkDB (map (fun v => if u_id v =? u_id u then with_token (Some token) v else v) (users db))
          (users_id_seq db) (user_progress db) (user_progress_id_seq db)).
Proof.
  unfold find_user, login, try_catch, bind, lift, select_users_by_username, update_token, ret.
  destruct (filter _ (users db)) as [|found rest]; [discriminate|].
  simpl. intros H Hc. injection H as ->. rewrite Hc. reflexivity.
Qed.

Lemma login_outcome (name : string) (password : option json) (now : Z) (db : DB) :
  (exists u, find_user name db = Some u
             /\ bcrypt_compare E password (u_password_hash u) = inr true)
  \/ login E name password now db = (Sent invalid_login, db)
  \/ (exists u e, find_user name db = Some u
                  /\ bcrypt_compare E password (u_password_hash u) = inl e
                  /\ login E name password now db = (Next e, db)).
Proof.
  destruct (find_user name db) as [u|] eqn:Hf.
  - destruct (bcrypt_compare E password (u_password_hash u)) as [e | [|]] eqn:Hc.
    + right. right. exists u, e. repeat split; try assumption.
      exact (login_throws _ _ _ _ _ _ Hf Hc).
    + left. exists u. split; [reflexivity | exact Hc].
    + right. left. exact (login_wrong_password _ _ _ _ _ Hf Hc).
  - right. left. exact (login_unknown _ _ _ _ Hf).
Qed.

End AccountFacts.

(** C4, as the code has it.  Sign-up and login sign the token over
    (user id, username) with the secret and no expiry option; and on
    every protected route a token that verification reports expired is
    answered 401 'Token expired', the handler not run and nothing
    written. *)
Theorem issued_without_expiry_expired_rejected (E : Env) (now : Z) (db : DB) :
  (forall req name password adv,
      call req = SignUp name password adv ->
      username_taken name db = false ->
      json_get ["user"; "token"] (rsp_body (fst (app E req now db)))
      = Some (JStr (jwt_sign E (mkPayload (users_id_seq db + 1) name)
                             (SECRET_KEY E) None now)))
  /\ (forall req name (password : option json) u,
      call req = Login name password ->
      find_user name db = Some u ->
      bcrypt_compare E password (u_password_hash u) = inr true ->
      json_get ["user"; "token"] (rsp_body (fst (app E req now db)))
      = Some (JStr (jwt_sign E (mkPayload (u_id u) (u_username u))
                             (SECRET_KEY E) None now)))
  /\ (forall req e,
      protected (call req) = true ->
      verified E req now = inl e ->
      err_name e = "TokenExpiredError" ->
      app E req now db = (token_expired, db)).
Proof.
  repeat split.
  - intros req name password adv Hc Hfree. unfold app, route. rewrite Hc.
    rewrite (sign_up_fresh E _ password adv now _ Hfree). reflexivity.
  - intros req name password u Hc Hf Hp. unfold app, route. rewrite Hc.
    rewrite (login_success E _ _ now _ _ Hf Hp). reflexivity.
  - intros req e Hprot Hv Hn. unfold app, route.
    destruct (call req); try discriminate Hprot;
      unfold guarded; rewrite (rejected_expired E _ _ db e Hv Hn); reflexivity.
Qed.

Lemma issued_without_expiry_expired_rejected_witness :
  json_get ["user"; "token"]
           (rsp_body (fst (app Ref.env Ref.astra_sign_up 1000 empty_db)))
  = Some (JStr (Ref.sign (mkPayload 1 "astra") "s3cret" None 1000))
  /\ json_get ["user"; "token"]
              (rsp_body (fst (app Ref.env (request None (Login "astra" (text "pw1"))) 2000
                                  Ref.after_sign_up)))
     = Some (JStr (Ref.sign (mkPayload 1 "astra") "s3cret" None 2000))
  /\ app Ref.env (request (Ref.bearer Ref.short_token) LoadProgress) 60 Ref.after_sign_up
     = (token_expired, Ref.after_sign_up).
Proof.
  split; [|split].
  - apply (proj1 (issued_without_expiry_expired_rejected Ref.env 1000 empty_db)
                 Ref.astra_sign_up "astra" "pw1" "Zel"); reflexivity.
  - apply (proj1 (proj2 (issued_without_expiry_expired_rejected
                           Ref.env 2000 Ref.after_sign_up))
                 (request None (Login "astra" (text "pw1"))) "astra" (text "pw1")
                 (mkUser 1 "astra" (Ref.hash "pw1") "Zel" (Some Ref.astra_token)));
      reflexivity.
  - apply (proj2 (proj2 (issued_without_expiry_expired_rejected
                           Ref.env 60 Ref.after_sign_up))
                 (request (Ref.bearer Ref.short_token) LoadProgress) Ref.expired_error);
      reflexivity.
Defined.

(** C4, counterexample.  The token issued at sign-up carries no expiry
    and is still accepted a thousand years later. *)
Lemma issued_token_never_expires :
  json_get ["user"; "token"] (rsp_body (fst (app Ref.env Ref.astra_sign_up 1000 empty_db)))
  = Some (JStr Ref.astra_token)
  /\ Ref.decode Ref.astra_token
     = Some (mkPayload 1 "astra", None, Ref.hex_of_string "s3cret")
  /\ app Ref.env (request (Ref.bearer Ref.astra_token) Game) 31557600000 Ref.after_sign_up
     = (res_json (JObj [("userId", JNum 1); ("username", JStr "astra")]),
        Ref.after_sign_up).
Proof.
  repeat split; vm_compute; reflexivity.
Qed.

(** The two failures the handler answers itself are answered alike:
    an unknown username and a password that [bcrypt.compare] finds
    wrong both get the 401 'Invalid username or password', and nothing
    is written. *)
Lemma login_bad_credentials_uniform
    (E : Env) (req : Request) (name : string) (password : option json) (now : Z) (db : DB) :
  call req = Login name password ->
  (find_user name db = None -> app E req now db = (invalid_login, db))
  /\ (forall u, find_user name db = Some u ->
                bcrypt_compare E password (u_password_hash u) = inr false ->
                app E req now db = (invalid_login, db)).
Proof.
  intros Hc. unfold app, route. rewrite Hc. split.
  - intros Hf. rewrite (login_unknown E _ _ _ _ Hf). reflexivity.
  - intros u Hf Hp. rewrite (login_wrong_password E _ _ _ _ _ Hf Hp). reflexivity.
Qed.

(** A password that [bcrypt.compare] rejects is noticed only when the
    username exists: the answer is then the generic error handler's,
    whose body is never that of the 401. *)
Lemma login_throw_is_not_the_401
    (E : Env) (req : Request) (name : string) (password : option json) (now : Z) (db : DB)
    (u : UserRow) (e : Error) :
  call req = Login name password ->
  find_user name db = Some u ->
  bcrypt_compare E password (u_password_hash u) = inl e ->
  app E req now db = (error_handler e, db)
  /\ error_handler e <> invalid_login.
Proof.
  intros Hc Hf Hp. unfold app, route. rewrite Hc.
  rewrite (login_throws E _ _ now _ _ _ Hf Hp). split; [reflexivity|].
  unfold error_handler, invalid_login, res_status_json, error_body. intros H.
  injection H as _ H. discriminate.
Qed.

(** C6, at the failing input.  A login whose body has no password: for
    the existing username [bcrypt.compare] throws and the generic error
    handler answers 500 with the library's message; for an unknown
    username the answer is the 401 'Invalid username or password'.  The
    two failures differ, and tell whether the username exists. *)
Theorem login_without_password_reveals_user :
  find_user "astra" Ref.after_sign_up
  = Some (mkUser 1 "astra" (Ref.hash "pw1") "Zel" (Some Ref.astra_token))
  /\ find_user "nobody" Ref.after_sign_up = None
  /\ app Ref.env (request None (Login "astra" None)) 1500 Ref.after_sign_up
     = (mkResponse 500
          (JObj [("error", JObj [("message", JStr "data and hash arguments required");
                                 ("status", JNum 500)])]),
        Ref.after_sign_up)
  /\ app Ref.env (request None (Login "nobody" None)) 1500 Ref.after_sign_up
     = (mkResponse 401 (JObj [("error", JStr "Invalid username or password")]),
        Ref.after_sign_up).
Proof.
  repeat split; vm_compute; reflexivity.
Qed.




(** C3, at the failing input.  The response to a successful login holds
    the stored password hash, under the key [password_hash]; the
    response to sign-up does not. *)
Theorem login_response_holds_password_hash :
  let db := Ref.after_sign_up in
  let body := rsp_body (fst (app Ref.env (request None (Login "astra" (text "pw1"))) 2000 db)) in
  map u_password_hash (users db) = [Ref.hash "pw1"]
  /\ rsp_status (fst (app Ref.env (request None (Login "astra" (text "pw1"))) 2000 db)) = 200
  /\ json_get ["user"; "password_hash"] body = Some (JStr (Ref.hash "pw1"))
  /\ In (Ref.hash "pw1") (json_strings body)
  /\ ~ In (Ref.hash "pw1")
          (json_strings (rsp_body (fst (app Ref.env Ref.astra_sign_up 1000 empty_db)))).
Proof.
  repeat split; try (vm_compute; reflexivity).
  - vm_compute. right. left. reflexivity.
  - vm_compute. intros [H | [H | [H | []]]]; discriminate.
Qed.

(** Every successful login does so, whatever the libraries are. *)
Lemma login_success_sends_hash
    (E : Env) (req : Request) (name : string) (password : option json) (now : Z) (db : DB)
    (u : UserRow) :
  call req = Login name password ->
  find_user name db = Some u ->
  bcrypt_compare E password (u_password_hash u) = inr true ->
  json_get ["user"; "password_hash"] (rsp_body (fst (app E req now db)))
  = Some (JStr (u_password_hash u)).
Proof.
  intros Hc Hf Hp. unfold app, route. rewrite Hc.
  rewrite (login_success E _ _ now _ _ Hf Hp). reflexivity.
Qed.

(* ================================================================= *)
(** ** The save-game routes *)

(** When the database takes the values: the new row's owner is the
    [userId] of the body; [req.user] is not read. *)
Lemma save_progress_run
    (E : Env) (body : SaveBody) (req : Request) (db : DB) (state inv : json) :
  progress_payloads E body = inr (state, inv) ->
  let i := user_progress_id_seq db + 1 in
  save_progress E body req db
  = (Sent (res_status_json 200
       (JObj [("savedProgress",
               JObj [("id", JNum i); ("save_name", JStr (b_saveName body))])])),
     mkDB (users db) (users_id_seq db)
          (user_progress db
             ++ [mkProgress i (b_userId body) (b_storyId body) (b_chapterId body)
                            state inv (b_saveName body)])
          i).
Proof.
  intros H. unfold save_progress, try_catch, bind, insert_progress, ret.
  rewrite H. reflexivity.
Qed.

(** When the database refuses them: the [catch] answers 500 and no row
    is written. *)
Lemma save_progress_refused
    (E : Env) (body : SaveBody) (req : Request) (db : DB) (e : Error) :
  progress_payloads E body = inl e ->
  save_progress E body req db = (Sent internal_server_error, db).
Proof.
  intros H. unfold save_progress, try_catch, bind, insert_progress.
  rewrite H. reflexivity.
Qed.

Lemma filter_none {A : Type} (f : A -> bool) (l : list A) :
  (forall x, In x l -> f x = false) -> filter f l = [].
Proof.
  induction l as [|a l IH]; intros H; simpl; [reflexivity|].
  rewrite (H a (or_introl eq_refl)). apply IH. intros x Hx. apply H. now right.
Qed.

Lemma filter_all {A : Type} (f : A -> bool) (l : list A) :
  (forall x, In x l -> f x = true) -> filter f l = l.
Proof.
  induction l as [|a l IH]; intros H; simpl; [reflexivity|].
  rewrite (H a (or_introl eq_refl)). f_equal. apply IH. intros x Hx. apply H. now right.
Qed.

Lemma delete_matches_false (pid owner : Z) (r : ProgressRow) :
  (p_id r = pid -> p_user_id r <> owner) -> delete_matches pid owner r = false.
Proof.
  intros H. unfold delete_matches.
  destruct (Z.eqb_spec (p_id r) pid) as [Hid|]; [|reflexivity].
  destruct (Z.eqb_spec (p_user_id r) owner) as [Ho|]; [|reflexivity].
  now elim (H Hid).
Qed.

(** The route runs one DELETE and looks only at how many rows it
    returned. *)
Lemma delete_progress_route_run
    (E : Env) (pid : string) (i : Z) (req : Request) (p : Payload) (db : DB) :
  id_of_text E pid = inr i ->
  delete_progress_route E pid (set_user req p) db
  = (Sent (if negb (Nat.eqb (List.length (filter (delete_matches i (userId p))
                                                 (user_progress db))) 1)
           then not_found_or_unauthorized
           else res_status_json 200
                  (JObj [("message", JStr "Saved game deleted successfully.")])),
     mkDB (users db) (users_id_seq db)
          (filter (fun r => negb (delete_matches i (userId p) r)) (user_progress db))
          (user_progress_id_seq db)).
Proof.
  intros H.
  unfold delete_progress_route, try_catch, bind, req_user, delete_progress, ret. simpl.
  rewrite H, length_map.
  destruct (negb _); reflexivity.
Qed.

(** When the database does not take [progressId] for an id, the query
    throws, the [catch] answers 500 and nothing is deleted. *)
Lemma delete_progress_route_refused
    (E : Env) (pid : string) (e : Error) (req : Request) (p : Payload) (db : DB) :
  id_of_text E pid = inl e ->
  delete_progress_route E pid (set_user req p) db = (Sent internal_server_error, db).
Proof.
  intros H.
  unfold delete_progress_route, try_catch, bind, req_user, delete_progress, ret. simpl.
  rewrite H. reflexivity.
Qed.





Lemma load_progress_run (req : Request) (p : Payload) (db : DB) :
  load_progress (set_user req p) db
  = (Sent (match order_by_id_desc (owned_by (userId p) db) with
           | [] => no_saved_game
           | latest :: _ =>
               res_status_json 200 (JObj [("savedGameData", progress_json latest)])
           end),
     db).
Proof.
  unfold load_progress, try_catch, bind, req_user, select_latest_progress, ret, owned_by.
  simpl. destruct (order_by_id_desc _); reflexivity.
Qed.

Lemma update_player_run (a : string) (req : Request) (p : Payload) (db : DB) :
  update_player a (set_user req p) db
  = (Sent (res_json (JObj [("message", JStr "Saved Adventurer Name successfully.")])),
     mkDB (map (fun u => if u_id u =? userId p then with_adventurer_name a u else u)
               (users db))
          (users_id_seq db) (user_progress db) (user_progress_id_seq db)).
Proof. reflexivity. Qed.


(** C2, at the failing input.  astra (id 1) is the authenticated caller
    and sends [userId: 2] in the body: the row created belongs to id 2,
    and it is what bryn (id 2) then loads as her latest save. *)
Theorem save_progress_owner_is_body_userId :
  accepts Ref.env Ref.planted_save 1300 Ref.two_players (mkPayload 1 "astra")
  /\ user_progress (snd (app Ref.env Ref.planted_save 1300 Ref.two_players))
     = (user_progress Ref.two_players ++ [mkProgress 2 2 1 2 JNull JNull "planted"])%list
  /\ json_get ["savedGameData"; "save_name"]
       (rsp_body (fst (app Ref.env (request (Ref.bearer Ref.bryn_token) LoadProgress) 1301
                           (snd (app Ref.env Ref.planted_save 1300 Ref.two_players)))))
     = Some (JStr "planted").
Proof.
  repeat split; vm_compute; reflexivity.
Qed.

(** On every authenticated save that the database takes, the owner of
    the new row is the body's [userId], whoever the caller is. *)
Lemma save_progress_owner_any
    (E : Env) (req : Request) (body : SaveBody) (now : Z) (db : DB) (p : Payload)
    (state inv : json) :
  call req = SaveProgress body ->
  accepts E req now db p ->
  progress_payloads E body = inr (state, inv) ->
  map p_user_id (user_progress (snd (app E req now db)))
  = (map p_user_id (user_progress db) ++ [b_userId body])%list.
Proof.
  intros Hc Ha Hv. unfold app, route. rewrite Hc.
  rewrite (guarded_accepts E _ _ _ _ _ Ha), (save_progress_run E _ _ _ _ _ Hv). simpl.
  rewrite map_app. reflexivity.
Qed.

(** C5, as the code has it.  delete-progress runs one DELETE whose
    predicate is [id = progressId AND user_id = caller].  When
    [progressId] reads as an id and no row has that id, or the rows that
    have it belong to someone else, the answer is the one 404 'Saved
    game not found or unauthorized to delete.' and the whole state, the
    other owner's row included, is as before.  When the database does
    not take [progressId] for an id, the query throws and the answer is
    500 'Internal Server Error', the state again as before. *)
Theorem delete_progress_not_own
    (E : Env) (req : Request) (pid : string) (now : Z) (db : DB) (p : Payload) :
  call req = DeleteProgress pid ->
  accepts E req now db p ->
  (forall i, id_of_text E pid = inr i ->
     user_progress (snd (app E req now db))
     = filter (fun r => negb ((p_id r =? i) && (p_user_id r =? userId p))) (user_progress db)
     /\ ((forall r, In r (user_progress db) -> p_id r = i -> p_user_id r <> userId p) ->
         app E req now db = (not_found_or_unauthorized, db)))
  /\ (forall e, id_of_text E pid = inl e ->
       app E req now db = (internal_server_error, db)).
Proof.
  intros Hc Ha. unfold app, route. rewrite Hc.
  rewrite (guarded_accepts E _ _ _ _ _ Ha). split.
  - intros i Hi. rewrite (delete_progress_route_run E _ _ _ _ _ Hi).
    split; [reflexivity|]. intros Hno.
    rewrite (filter_none (delete_matches i (userId p))).
    + rewrite filter_all.
      * destruct db; reflexivity.
      * intros r Hr. rewrite delete_matches_false; [reflexivity | now apply Hno].
    + intros r Hr. apply delete_matches_false. now apply Hno.
  - intros e He. rewrite (delete_progress_route_refused E _ _ _ _ _ He). reflexivity.
Qed.

Lemma delete_progress_not_own_witness :
  app Ref.env (request (Ref.bearer Ref.astra_token) (DeleteProgress "1")) 1300 Ref.two_players
  = (not_found_or_unauthorized, Ref.two_players)
  /\ app Ref.env (request (Ref.bearer Ref.astra_token) (DeleteProgress "7")) 1300 Ref.two_players
     = (not_found_or_unauthorized, Ref.two_players)
  /\ app Ref.env (request (Ref.bearer Ref.astra_token) (DeleteProgress "seven")) 1300
         Ref.two_players
     = (internal_server_error, Ref.two_players).
Proof.
  split; [|split].
  - apply (proj1 (delete_progress_not_own
                    Ref.env (request (Ref.bearer Ref.astra_token) (DeleteProgress "1"))
                    "1" 1300 Ref.two_players (mkPayload 1 "astra") eq_refl eq_refl)
                 1 eq_refl).
    intros r [<- | []] _. simpl. discriminate.
  - apply (proj1 (delete_progress_not_own
                    Ref.env (request (Ref.bearer Ref.astra_token) (DeleteProgress "7"))
                    "7" 1300 Ref.two_players (mkPayload 1 "astra") eq_refl eq_refl)
                 7 eq_refl).
    intros r [<- | []] H. simpl in H. discriminate.
  - apply (proj2 (delete_progress_not_own
                    Ref.env (request (Ref.bearer Ref.astra_token) (DeleteProgress "seven"))
                    "seven" 1300 Ref.two_players (mkPayload 1 "astra") eq_refl eq_refl)
                 (Ref.pg_error "invalid input syntax for type integer")).
    reflexivity.
Defined.

(** C5, counterexample.  No save has the id 2147483648, and none is
    called [seven]; astra's delete-progress on either is answered 500
    'Internal Server Error', not the 404. *)
Lemma delete_progress_bad_id_is_500 :
  (forall r, In r (user_progress Ref.two_players) -> p_id r <> 2147483648)
  /\ app Ref.env (request (Ref.bearer Ref.astra_token) (DeleteProgress "2147483648")) 1300
         Ref.two_players
     = (mkResponse 500 (JObj [("error", JStr "Internal Server Error")]), Ref.two_players)
  /\ app Ref.env (request (Ref.bearer Ref.astra_token) (DeleteProgress "seven")) 1300
         Ref.two_players
     = (mkResponse 500 (JObj [("error", JStr "Internal Server Error")]), Ref.two_players)
  /\ internal_server_error <> not_found_or_unauthorized.
Proof.
  repeat split; try (vm_compute; reflexivity).
  - intros r [<- | []]. simpl. discriminate.
  - discriminate.
Qed.




(** save-progress either appends one row or writes nothing.  When the
    database takes the values, the row holds the body's [userId] as
    owner and the payloads as the database keeps them, and, while no
    save has an id above the counter, its id is above every other: the
    generated ids follow the order of creation.  When the database
    refuses the values, the answer is 500 'Internal Server Error'. *)
Lemma new_save_has_greatest_id
    (E : Env) (req : Request) (body : SaveBody) (now : Z) (db : DB) (p : Payload) :
  call req = SaveProgress body ->
  accepts E req now db p ->
  ids_below_seq db ->
  let db' := snd (app E req now db) in
  let i := user_progress_id_seq db + 1 in
  ids_below_seq db'
  /\ (forall state inv,
        progress_payloads E body = inr (state, inv) ->
        user_progress db'
        = (user_progress db
             ++ [mkProgress i (b_userId body) (b_storyId body) (b_chapterId body)
                            state inv (b_saveName body)])%list
        /\ forall r, In r (user_progress db) -> p_id r < i)
  /\ (forall e,
        progress_payloads E body = inl e ->
        app E req now db = (internal_server_error, db)).
Proof.
  intros Hc Ha Hinv. unfold app, route. rewrite Hc.
  rewrite (guarded_accepts E _ _ _ _ _ Ha).
  destruct (progress_payloads E body) as [e | [state inv]] eqn:Hv.
  - rewrite (save_progress_refused E _ _ _ _ Hv). simpl.
    split; [exact Hinv|]. split; [discriminate|]. reflexivity.
  - rewrite (save_progress_run E _ _ _ _ _ Hv). simpl. split; [|split].
    + intros r Hr. simpl in Hr. apply in_app_or in Hr.
      destruct Hr as [Hr | [<- | []]]; simpl; [|lia].
      specialize (Hinv r Hr). lia.
    + intros state' inv' Heq. injection Heq as <- <-. split; [reflexivity|].
      intros r Hr. specialize (Hinv r Hr). lia.
    + discriminate.
Qed.

Lemma map_only_name_changed (i : Z) (a : string) (l : list UserRow) :
  Forall2 (only_name_changed i a) l
          (map (fun u => if u_id u =? i then with_adventurer_name a u else u) l).
Proof.
  induction l as [|u l IH]; simpl; constructor; [|exact IH].
  unfold only_name_changed.
  destruct (Z.eqb_spec (u_id u) i) as [Heq | Hne]; simpl; intuition.
Qed.

(** C10.  An authenticated update-player writes the adventurer name of
    the user rows whose id is the caller's, and nothing else: row by
    row, id, username, password hash and stored token are kept, rows of
    other users are kept whole, and the saved-progress table and both
    counters are as before. *)
Theorem update_player_frame
    (E : Env) (req : Request) (a : string) (now : Z) (db : DB) (p : Payload) :
  call req = UpdatePlayer a ->
  accepts E req now db p ->
  let db' := snd (app E req now db) in
  Forall2 (only_name_changed (userId p) a) (users db) (users db')
  /\ user_progress db' = user_progress db
  /\ users_id_seq db' = users_id_seq db
  /\ user_progress_id_seq db' = user_progress_id_seq db.
Proof.
  intros Hc Ha. unfold app, route. rewrite Hc.
  rewrite (guarded_accepts E _ _ _ _ _ Ha), update_player_run. simpl.
  split; [apply map_only_name_changed | repeat split].
Qed.

Lemma update_player_frame_witness :
  let db' := snd (app Ref.env (request (Ref.bearer Ref.astra_token) (UpdatePlayer "Zelda"))
                      1500 Ref.three_saves) in
  Forall2 (only_name_changed 1 "Zelda") (users Ref.three_saves) (users db')
  /\ user_progress db' = user_progress Ref.three_saves
  /\ users_id_seq db' = users_id_seq Ref.three_saves
  /\ user_progress_id_seq db' = user_progress_id_seq Ref.three_saves.
Proof.
  apply (update_player_frame
           Ref.env (request (Ref.bearer Ref.astra_token) (UpdatePlayer "Zelda"))
           "Zelda" 1500 Ref.three_saves (mkPayload 1 "astra")); reflexivity.
Defined.

(* ================================================================= *)
(** ** Further properties of the middleware *)

Lemma split_on_word (w rest : string) :
  no_space w = true ->
  split_on " "%char (w ++ String " "%char rest) = w :: split_on " "%char rest.
Proof.
  induction w as [|c w IH]; simpl; intros H; [reflexivity|].
  apply andb_true_iff in H. destruct H as [Hc Hw].
  apply negb_true_iff in Hc. rewrite Hc, (IH Hw). reflexivity.
Qed.

Lemma split_on_single (w : string) :
  no_space w = true -> split_on " "%char w = [w].
Proof.
  induction w as [|c w IH]; simpl; intros H; [reflexivity|].
  apply andb_true_iff in H. destruct H as [Hc Hw].
  apply negb_true_iff in Hc. rewrite Hc, (IH Hw). reflexivity.
Qed.

Lemma gate_cases (E : Env) (req : Request) (now : Z) (db : DB) :
  (exists p, accepts E req now db p)
  \/ authenticateUser E req now db = (inl token_expired, db)
  \/ authenticateUser E req now db = (inl unauthorized, db).
Proof.
  destruct (verified E req now) as [err | p] eqn:Hv.
  - right. unfold authenticateUser. rewrite Hv.
    destruct (String.eqb (err_name err) "TokenExpiredError"); auto.
  - left. exists p. now apply accepts_iff_verified.
Qed.

Lemma app_rejected (E : Env) (req : Request) (now : Z) (db : DB) (r : Response) :
  protected (call req) = true ->
  authenticateUser E req now db = (inl r, db) ->
  app E req now db = (r, db).
Proof.
  intros Hp Hr. unfold app, route.
  destruct (call req); try discriminate Hp; unfold guarded; rewrite Hr; reflexivity.
Qed.

Lemma header_scheme_words
    (E : Env) (c : Call) (now : Z) (scheme token : string) :
  no_space scheme = true ->
  no_space token = true ->
  verified E (request (Some (scheme ++ " " ++ token)) c) now
  = jwt_verify E (Some token) (SECRET_KEY E) now
  /\ forall more,
       verified E (request (Some (scheme ++ " " ++ token ++ " " ++ more)) c) now
       = jwt_verify E (Some token) (SECRET_KEY E) now.
Proof.
  intros Hs Ht. unfold verified, header_token, request. simpl authorization. split.
  - change (" " ++ token)%string with (String " "%char token).
    rewrite (split_on_word _ _ Hs), (split_on_single _ Ht). reflexivity.
  - intros more.
    change (" " ++ token ++ " " ++ more)%string
      with (String " "%char (token ++ String " "%char more)).
    rewrite (split_on_word _ _ Hs), (split_on_word _ _ Ht). reflexivity.
Qed.

(** The middleware asks for no particular scheme: it verifies the
    second space-separated word of the header, whatever the first word
    is and whatever follows the second. *)
Theorem header_scheme_not_checked
    (E : Env) (c : Call) (now : Z) (scheme token : string) :
  no_space scheme = true ->
  no_space token = true ->
  verified E (request (Some (scheme ++ " " ++ token)) c) now
  = jwt_verify E (Some token) (SECRET_KEY E) now
  /\ forall more,
       verified E (request (Some (scheme ++ " " ++ token ++ " " ++ more)) c) now
       = jwt_verify E (Some token) (SECRET_KEY E) now.
Proof. exact (header_scheme_words E c now scheme token). Qed.

Lemma header_scheme_not_checked_witness :
  verified Ref.env (request (Some ("Basic" ++ " " ++ Ref.astra_token)) Game) 1500
  = Ref.verify (Some Ref.astra_token) "s3cret" 1500
  /\ forall more,
       verified Ref.env
                (request (Some ("Basic" ++ " " ++ Ref.astra_token ++ " " ++ more)) Game) 1500
       = Ref.verify (Some Ref.astra_token) "s3cret" 1500.
Proof.
  apply (header_scheme_not_checked Ref.env Game 1500 "Basic" Ref.astra_token);
    reflexivity.
Defined.

(** A request to a protected route that carries no Authorization
    header, or a header of one word that the library refuses as a
    missing token, is answered 401 'Unauthorized' and writes nothing. *)
Theorem missing_token_unauthorized (E : Env) (req : Request) (now : Z) (db : DB) :
  protected (call req) = true ->
  (authorization req = None
   \/ exists h e, authorization req = Some h /\ no_space h = true
                  /\ jwt_verify E None (SECRET_KEY E) now = inl e
                  /\ err_name e <> "TokenExpiredError") ->
  app E req now db = (unauthorized, db).
Proof.
  intros Hp H. apply app_rejected; [exact Hp|].
  unfold authenticateUser, verified, header_token.
  destruct H as [-> | (h & e & -> & Hh & He & Hn)].
  - reflexivity.
  - rewrite (split_on_single _ Hh). simpl. rewrite He.
    apply String.eqb_neq in Hn. rewrite Hn. reflexivity.
Qed.

Lemma missing_token_unauthorized_witness :
  app Ref.env (request None (DeleteProgress "1")) 1500 Ref.two_players
  = (unauthorized, Ref.two_players)
  /\ app Ref.env (request (Some "Bearer") (UpdatePlayer "Zed")) 1500 Ref.two_players
     = (unauthorized, Ref.two_players).
Proof.
  split.
  - apply (missing_token_unauthorized Ref.env (request None (DeleteProgress "1")) 1500
                                      Ref.two_players eq_refl).
    left. reflexivity.
  - apply (missing_token_unauthorized Ref.env (request (Some "Bearer") (UpdatePlayer "Zed"))
                                      1500 Ref.two_players eq_refl).
    right. exists "Bearer", (Ref.jwt_error "jwt must be provided").
    repeat split; discriminate.
Defined.

(** On a protected route the handler runs only for an accepted request:
    otherwise the answer is one of the two 401 responses of the
    middleware and the state is untouched. *)
Theorem rejected_request_writes_nothing (E : Env) (req : Request) (now : Z) (db : DB) :
  protected (call req) = true ->
  (forall p, ~ accepts E req now db p) ->
  (app E req now db = (token_expired, db) \/ app E req now db = (unauthorized, db)).
Proof.
  intros Hp Hno.
  destruct (gate_cases E req now db) as [(p & Ha) | [Hr | Hr]].
  - now elim (Hno p).
  - left. now apply app_rejected.
  - right. now apply app_rejected.
Qed.

Lemma rejected_request_writes_nothing_witness :
  app Ref.env (request (Some "Bearer garbage") Logout) 1500 Ref.two_players
  = (token_expired, Ref.two_players)
  \/ app Ref.env (request (Some "Bearer garbage") Logout) 1500 Ref.two_players
     = (unauthorized, Ref.two_players).
Proof.
  apply (rejected_request_writes_nothing
           Ref.env (request (Some "Bearer garbage") Logout) 1500 Ref.two_players eq_refl).
  intros p H. vm_compute in H. discriminate.
Defined.

(** GET /game and GET /load-progress never write, whatever the request. *)
Theorem read_routes_write_nothing (E : Env) (req : Request) (now : Z) (db : DB) :
  call req = Game \/ call req = LoadProgress ->
  snd (app E req now db) = db.
Proof.
  intros Hc.
  assert (Hp : protected (call req) = true) by (destruct Hc as [-> | ->]; reflexivity).
  destruct (gate_cases E req now db) as [(p & Ha) | [Hr | Hr]].
  - unfold app, route. destruct Hc as [-> | ->];
      rewrite (guarded_accepts E _ _ _ _ _ Ha).
    + reflexivity.
    + rewrite load_progress_run. reflexivity.
  - rewrite (app_rejected E _ _ _ _ Hp Hr). reflexivity.
  - rewrite (app_rejected E _ _ _ _ Hp Hr). reflexivity.
Qed.

Lemma read_routes_write_nothing_witness :
  snd (app Ref.env (request (Ref.bearer Ref.bryn_token) LoadProgress) 1500 Ref.three_saves)
  = Ref.three_saves.
Proof.
  apply (read_routes_write_nothing
           Ref.env (request (Ref.bearer Ref.bryn_token) LoadProgress) 1500 Ref.three_saves).
  right. reflexivity.
Defined.

(* ================================================================= *)
(** ** Further properties of the account routes *)

Lemma map_only_token_changed (i : Z) (t : option string) (l : list UserRow) :
  Forall2 (only_token_changed i t) l
          (map (fun u => if u_id u =? i then with_token t u else u) l).
Proof.
  induction l as [|u l IH]; simpl; constructor; [|exact IH].
  unfold only_token_changed.
  destruct (Z.eqb_spec (u_id u) i) as [Heq | Hne]; simpl; intuition.
Qed.

Lemma map_unchanged {A : Type} (f : A -> A) (l : list A) :
  (forall x, In x l -> f x = x) -> map f l = l.
Proof.
  induction l as [|a l IH]; intros H; simpl; [reflexivity|].
  rewrite (H a (or_introl eq_refl)), IH; [reflexivity|].
  intros x Hx. apply H. now right.
Qed.

Lemma logout_run (req : Request) (p : Payload) (db : DB) :
  logout (set_user req p) db
  = (Sent (res_json (JObj [("message", JStr "Logout successful")])),
     mkDB (map (fun u => if u_id u =? userId p then with_token None u else u) (users db))
          (users_id_seq db) (user_progress db) (user_progress_id_seq db)).
Proof. reflexivity. Qed.

Lemma logout_app (E : Env) (req : Request) (now : Z) (db : DB) (p : Payload) :
  call req = Logout ->
  accepts E req now db p ->
  app E req now db
  = (res_json (JObj [("message", JStr "Logout successful")]),
     mkDB (map (fun u => if u_id u =? userId p then with_token None u else u) (users db))
          (users_id_seq db) (user_progress db) (user_progress_id_seq db)).
Proof.
  intros Hc Ha. unfold app, route. rewrite Hc.
  rewrite (guarded_accepts E _ _ _ _ _ Ha), logout_run. reflexivity.
Qed.

(** An authenticated logout answers 'Logout successful', sets to NULL
    the stored token of the rows with the caller's id and changes
    nothing else; a second logout of the same caller leaves the state as
    the first left it. *)
Theorem logout_clears_only_token (E : Env) (req : Request) (now : Z) (db : DB) (p : Payload) :
  call req = Logout ->
  accepts E req now db p ->
  let db' := snd (app E req now db) in
  fst (app E req now db) = res_json (JObj [("message", JStr "Logout successful")])
  /\ Forall2 (only_token_changed (userId p) None) (users db) (users db')
  /\ user_progress db' = user_progress db
  /\ users_id_seq db' = users_id_seq db
  /\ user_progress_id_seq db' = user_progress_id_seq db
  /\ forall now', accepts E req now' db' p ->
                  app E req now' db' = (fst (app E req now db), db').
Proof.
  intros Hc Ha db'. unfold db'. rewrite (logout_app E _ _ _ _ Hc Ha). simpl.
  split; [reflexivity|]. split; [apply map_only_token_changed|].
  repeat split.
  intros now' Ha'. rewrite (logout_app E _ _ _ _ Hc Ha'). simpl.
  f_equal. f_equal. rewrite map_map. apply map_ext. intros u.
  destruct (Z.eqb_spec (u_id u) (userId p)) as [Heq | Hne]; simpl.
  - apply Z.eqb_eq in Heq. rewrite Heq. reflexivity.
  - apply Z.eqb_neq in Hne. rewrite Hne. reflexivity.
Qed.

Lemma logout_clears_only_token_witness :
  let req := request (Ref.bearer Ref.astra_token) Logout in
  let db' := snd (app Ref.env req 1500 Ref.two_players) in
  fst (app Ref.env req 1500 Ref.two_players)
  = res_json (JObj [("message", JStr "Logout successful")])
  /\ Forall2 (only_token_changed 1 None) (users Ref.two_players) (users db')
  /\ user_progress db' = user_progress Ref.two_players
  /\ users_id_seq db' = users_id_seq Ref.two_players
  /\ user_progress_id_seq db' = user_progress_id_seq Ref.two_players
  /\ forall now', accepts Ref.env req now' db' (mkPayload 1 "astra") ->
                  app Ref.env req now' db' = (fst (app Ref.env req 1500 Ref.two_players), db').
Proof.
  apply (logout_clears_only_token
           Ref.env (request (Ref.bearer Ref.astra_token) Logout) 1500 Ref.two_players
           (mkPayload 1 "astra")); reflexivity.
Defined.

Lemma find_user_In (name : string) (db : DB) (u : UserRow) :
  find_user name db = Some u -> In u (users db) /\ u_username u = name.
Proof.
  unfold find_user. intros H.
  assert (Hin : In u (filter (fun v => String.eqb (u_username v) name) (users db))).
  { destruct (filter _ (users db)) as [|v rest]; [discriminate|].
    injection H as ->. now left. }
  apply filter_In in Hin. destruct Hin as [Hin Heq].
  apply String.eqb_eq in Heq. now split.
Qed.

Lemma not_taken_filter (name : string) (db : DB) :
  username_taken name db = false ->
  filter (fun u => String.eqb (u_username u) name) (users db) = [].
Proof.
  unfold username_taken. intros H. apply filter_none. intros u Hu.
  destruct (String.eqb (u_username u) name) eqn:Heq; [|reflexivity].
  assert (Hex : existsb (fun v => String.eqb (u_username v) name) (users db) = true).
  { apply existsb_exists. now exists u. }
  congruence.
Qed.

Lemma not_taken_not_in (name : string) (db : DB) :
  username_taken name db = false -> ~ In name (map u_username (users db)).
Proof.
  intros H Hin. apply in_map_iff in Hin. destruct Hin as (u & Hu & Hin).
  pose proof (not_taken_filter name db H) as Hf.
  assert (Hin' : In u (filter (fun v => String.eqb (u_username v) name) (users db))).
  { apply filter_In. split; [exact Hin|]. now apply String.eqb_eq. }
  rewrite Hf in Hin'. exact Hin'.
Qed.

(** A successful login answers 200 with the new token, writes that
    token on the rows with the found user's id, and changes nothing
    else: the token sent is the token stored. *)
Theorem login_stores_returned_token
    (E : Env) (req : Request) (name : string) (password : option json) (now : Z) (db : DB)
    (u : UserRow) :
  call req = Login name password ->
  find_user name db = Some u ->
  bcrypt_compare E password (u_password_hash u) = inr true ->
  let db' := snd (app E req now db) in
  exists token,
    rsp_status (fst (app E req now db)) = 200
    /\ json_get ["user"; "token"] (rsp_body (fst (app E req now db))) = Some (JStr token)
    /\ In (with_token (Some token) u) (users db')
    /\ Forall2 (only_token_changed (u_id u) (Some token)) (users db) (users db')
    /\ user_progress db' = user_progress db
    /\ users_id_seq db' = users_id_seq db
    /\ user_progress_id_seq db' = user_progress_id_seq db.
Proof.
  intros Hc Hf Hp db'. unfold db', app, route. rewrite Hc.
  rewrite (login_success E _ _ now _ _ Hf Hp). simpl.
  eexists. split; [reflexivity|]. split; [reflexivity|].
  split; [|split; [apply map_only_token_changed | repeat split]].
  apply in_map_iff. exists u. split; [|exact (proj1 (find_user_In _ _ _ Hf))].
  rewrite Z.eqb_refl. reflexivity.
Qed.

Lemma login_stores_returned_token_witness :
  let req := request None (Login "astra" (text "pw1")) in
  let u := mkUser 1 "astra" (Ref.hash "pw1") "Zel" (Some Ref.astra_token) in
  let db' := snd (app Ref.env req 2000 Ref.two_players) in
  exists token,
    rsp_status (fst (app Ref.env req 2000 Ref.two_players)) = 200
    /\ json_get ["user"; "token"] (rsp_body (fst (app Ref.env req 2000 Ref.two_players)))
       = Some (JStr token)
    /\ In (with_token (Some token) u) (users db')
    /\ Forall2 (only_token_changed 1 (Some token)) (users Ref.two_players) (users db')
    /\ user_progress db' = user_progress Ref.two_players
    /\ users_id_seq db' = users_id_seq Ref.two_players
    /\ user_progress_id_seq db' = user_progress_id_seq Ref.two_players.
Proof.
  apply (login_stores_returned_token
           Ref.env (request None (Login "astra" (text "pw1"))) "astra" (text "pw1") 2000
           Ref.two_players
           (mkUser 1 "astra" (Ref.hash "pw1") "Zel" (Some Ref.astra_token)));
    reflexivity.
Defined.

(** The state a sign-up with a free username leaves. *)
Lemma sign_up_fresh_state
    (E : Env) (name password adv : string) (now : Z) (db : DB) :
  username_taken name db = false ->
  (forall u, In u (users db) -> u_id u <= users_id_seq db) ->
  let i := users_id_seq db + 1 in
  let token := jwt_sign E (mkPayload i name) (SECRET_KEY E) None now in
  snd (sign_up E name password adv now db)
  = mkDB (users db ++ [mkUser i name (bcrypt_hash E password) adv (Some token)])
         i (user_progress db) (user_progress_id_seq db).
Proof.
  intros Hfree Hids. rewrite (sign_up_fresh E _ password adv now _ Hfree). simpl.
  f_equal. rewrite map_app. simpl. rewrite Z.eqb_refl. f_equal.
  apply map_unchanged. intros u Hu.
  destruct (Z.eqb_spec (u_id u) (users_id_seq db + 1)) as [Heq|]; [|reflexivity].
  specialize (Hids u Hu). lia.
Qed.



Lemma filter_map_keeps {A : Type} (f : A -> bool) (g : A -> A) (l : list A) :
  (forall x, f (g x) = f x) -> filter f (map g l) = map g (filter f l).
Proof.
  intros H. induction l as [|a l IH]; simpl; [reflexivity|].
  rewrite H. destruct (f a); simpl; now rewrite IH.
Qed.

(** Sign-up, then login with the same username and password: when
    bcrypt accepts the password against its own hash, the login
    succeeds and answers with the id given at sign-up. *)
Theorem sign_up_then_login
    (E : Env) (req1 req2 : Request) (name password adv : string) (t1 t2 : Z) (db : DB) :
  call req1 = SignUp name password adv ->
  call req2 = Login name (text password) ->
  username_taken name db = false ->
  bcrypt_compare E (text password) (bcrypt_hash E password) = inr true ->
  let r := fst (app E req2 t2 (snd (app E req1 t1 db))) in
  rsp_status r = 200
  /\ json_get ["user"; "id"] (rsp_body r) = Some (JNum (users_id_seq db + 1))
  /\ json_get ["user"; "username"] (rsp_body r) = Some (JStr name)
  /\ json_get ["user"; "adventurer_name"] (rsp_body r) = Some (JStr adv).
Proof.
  intros Hc1 Hc2 Hfree Hb.
  assert (Hs : snd (app E req1 t1 db) = snd (sign_up E name password adv t1 db)).
  { unfold app, route. rewrite Hc1. destruct (sign_up E name password adv t1 db) as [[r|e] d];
      reflexivity. }
  rewrite Hs, (sign_up_fresh E name password adv t1 db Hfree). simpl snd.
  set (i := users_id_seq db + 1).
  set (tok := jwt_sign E (mkPayload i name) (SECRET_KEY E) None t1).
  set (new := mkUser i name (bcrypt_hash E password) adv (Some tok)).
  set (db1 := mkDB _ _ _ _).
  assert (Hf : find_user name db1 = Some new).
  { unfold find_user, db1. simpl users.
    rewrite filter_map_keeps.
    - rewrite filter_app, (not_taken_filter _ _ Hfree). simpl.
      rewrite String.eqb_refl. simpl. unfold i. rewrite Z.eqb_refl. reflexivity.
    - intros u. destruct (u_id u =? i); reflexivity. }
  unfold app, route. rewrite Hc2.
  rewrite (login_success E name (text password) t2 db1 new Hf Hb). simpl. repeat split.
Qed.

Lemma sign_up_then_login_witness :
  let r := fst (app Ref.env (request None (Login "cleo" (text "pw3"))) 1600
                    (snd (app Ref.env (request None (SignUp "cleo" "pw3" "Cee")) 1500
                              Ref.two_players))) in
  rsp_status r = 200
  /\ json_get ["user"; "id"] (rsp_body r) = Some (JNum (users_id_seq Ref.two_players + 1))
  /\ json_get ["user"; "username"] (rsp_body r) = Some (JStr "cleo")
  /\ json_get ["user"; "adventurer_name"] (rsp_body r) = Some (JStr "Cee").
Proof.
  apply (sign_up_then_login
           Ref.env (request None (SignUp "cleo" "pw3" "Cee"))
           (request None (Login "cleo" (text "pw3")))
           "cleo" "pw3" "Cee" 1500 1600 Ref.two_players eq_refl eq_refl eq_refl eq_refl).
Defined.

Lemma game_app (E : Env) (req : Request) (now : Z) (db : DB) (p : Payload) :
  call req = Game ->
  accepts E req now db p ->
  app E req now db
  = (res_json (JObj [("userId", JNum (userId p)); ("username", JStr (username p))]), db).
Proof.
  intros Hc Ha. unfold app, route. rewrite Hc.
  rewrite (guarded_accepts E _ _ _ _ _ Ha). reflexivity.
Qed.

(** The token sent by a successful sign-up, presented as
    [Bearer <token>] on GET /game, is answered with the identity of the
    new account, provided the library verifies the token it signed and
    the token has no space in it. *)
Theorem sign_up_token_accepted
    (E : Env) (req : Request) (name password adv : string) (t1 t2 : Z) (db : DB) :
  call req = SignUp name password adv ->
  username_taken name db = false ->
  let i := users_id_seq db + 1 in
  let token := jwt_sign E (mkPayload i name) (SECRET_KEY E) None t1 in
  no_space token = true ->
  jwt_verify E (Some token) (SECRET_KEY E) t2 = inr (mkPayload i name) ->
  json_get ["user"; "token"] (rsp_body (fst (app E req t1 db))) = Some (JStr token)
  /\ fst (app E (request (Some ("Bearer " ++ token)) Game) t2 (snd (app E req t1 db)))
     = res_json (JObj [("userId", JNum i); ("username", JStr name)]).
Proof.
  intros Hc Hfree i token Hns Hv. split.
  - unfold app, route. rewrite Hc.
    rewrite (sign_up_fresh E _ password adv t1 _ Hfree). reflexivity.
  - set (db1 := snd (app E req t1 db)).
    assert (Ha : accepts E (request (Some ("Bearer " ++ token)) Game) t2 db1
                         (mkPayload i name)).
    { apply accepts_iff_verified.
      change (verified E (request (Some ("Bearer" ++ " " ++ token)) Game) t2
              = inr (mkPayload i name)).
      rewrite (proj1 (header_scheme_words E Game t2 "Bearer" token eq_refl Hns)).
      exact Hv. }
    rewrite (game_app E (request (Some ("Bearer " ++ token)) Game) t2 db1 _ eq_refl Ha).
    reflexivity.
Qed.

Lemma sign_up_token_accepted_witness :
  json_get ["user"; "token"] (rsp_body (fst (app Ref.env Ref.astra_sign_up 1000 empty_db)))
  = Some (JStr (Ref.sign (mkPayload 1 "astra") "s3cret" None 1000))
  /\ fst (app Ref.env
              (request (Some ("Bearer " ++ Ref.sign (mkPayload 1 "astra") "s3cret" None 1000))
                       Game)
              5000 (snd (app Ref.env Ref.astra_sign_up 1000 empty_db)))
     = res_json (JObj [("userId", JNum 1); ("username", JStr "astra")]).
Proof.
  apply (sign_up_token_accepted Ref.env Ref.astra_sign_up "astra" "pw1" "Zel" 1000 5000
                                empty_db); reflexivity.
Defined.

(* ================================================================= *)
(** ** An invariant of the store *)

Lemma NoDup_snoc {A : Type} (l : list A) (a : A) :
  NoDup l -> ~ In a l -> NoDup (l ++ [a]).
Proof.
  intros Hl Ha. apply NoDup_app.
  - exact Hl.
  - constructor; [intros [] | constructor].
  - intros x Hx [<- | []]. now apply Ha.
Qed.

Lemma NoDup_map_filter {A B : Type} (f : A -> B) (g : A -> bool) (l : list A) :
  NoDup (map f l) -> NoDup (map f (filter g l)).
Proof.
  induction l as [|a l IH]; simpl; intros H; [constructor|].
  apply NoDup_cons_iff in H. destruct H as [Ha Hl].
  destruct (g a); simpl; [|now apply IH].
  constructor; [|now apply IH].
  intros Hin. apply Ha. apply in_map_iff in Hin. destruct Hin as (x & Hx & Hin).
  apply filter_In in Hin. apply in_map_iff. exists x. tauto.
Qed.

(** A write that maps the user rows keeping ids and usernames. *)
Lemma store_ok_users_map (f : UserRow -> UserRow) (db : DB) :
  (forall u, u_id (f u) = u_id u /\ u_username (f u) = u_username u) ->
  store_ok db ->
  store_ok (mkDB (map f (users db)) (users_id_seq db)
                 (user_progress db) (user_progress_id_seq db)).
Proof.
  intros Hf (Hn & Hi & Hb & Hp & Hs). unfold store_ok, ids_below_seq. simpl.
  rewrite !map_map.
  rewrite (map_ext (fun u => u_username (f u)) u_username) by (intros u; apply Hf).
  rewrite (map_ext (fun u => u_id (f u)) u_id) by (intros u; apply Hf).
  repeat split; try assumption.
  intros u' Hu'. apply in_map_iff in Hu'. destruct Hu' as (u & <- & Hu).
  rewrite (proj1 (Hf u)). now apply Hb.
Qed.

Lemma token_write_keeps (t : option string) (i : Z) (u : UserRow) :
  u_id (if u_id u =? i then with_token t u else u) = u_id u
  /\ u_username (if u_id u =? i then with_token t u else u) = u_username u.
Proof. destruct (u_id u =? i); split; reflexivity. Qed.

Lemma name_write_keeps (a : string) (i : Z) (u : UserRow) :
  u_id (if u_id u =? i then with_adventurer_name a u else u) = u_id u
  /\ u_username (if u_id u =? i then with_adventurer_name a u else u) = u_username u.
Proof. destruct (u_id u =? i); split; reflexivity. Qed.

Lemma store_ok_sign_up (E : Env) (name password adv : string) (now : Z) (db : DB) :
  store_ok db -> store_ok (snd (sign_up E name password adv now db)).
Proof.
  intros Hok. destruct (username_taken name db) eqn:Ht.
  - rewrite (sign_up_taken E _ password adv now _ Ht). simpl.
    destruct Hok as (Hn & Hi & Hb & Hp & Hs). unfold store_ok, ids_below_seq. simpl.
    repeat split; try assumption. intros u Hu. specialize (Hb u Hu). lia.
  - destruct Hok as (Hn & Hi & Hb & Hp & Hs).
    rewrite (sign_up_fresh_state E name password adv now db Ht Hb).
    unfold store_ok, ids_below_seq. simpl. rewrite !map_app. simpl.
    repeat split; try assumption.
    + apply NoDup_snoc; [exact Hn | now apply not_taken_not_in].
    + apply NoDup_snoc; [exact Hi|]. intros Hin.
      apply in_map_iff in Hin. destruct Hin as (u & Hu & Hin).
      specialize (Hb u Hin). lia.
    + intros u Hu. apply in_app_or in Hu. destruct Hu as [Hu | [<- | []]]; simpl; [|lia].
      specialize (Hb u Hu). lia.
Qed.

Lemma store_ok_login
    (E : Env) (name : string) (password : option json) (now : Z) (db : DB) :
  store_ok db -> store_ok (snd (login E name password now db)).
Proof.
  intros Hok.
  destruct (login_outcome E name password now db)
    as [(u & Hf & Hp) | [Hfail | (u & e & _ & _ & Hthrow)]].
  - rewrite (login_success E _ _ now _ _ Hf Hp). simpl.
    apply (store_ok_users_map _ db); [|exact Hok]. intros v. apply token_write_keeps.
  - rewrite Hfail. exact Hok.
  - rewrite Hthrow. exact Hok.
Qed.

Lemma store_ok_save (E : Env) (body : SaveBody) (req : Request) (db : DB) :
  store_ok db -> store_ok (snd (save_progress E body req db)).
Proof.
  intros Hok. destruct (progress_payloads E body) as [e | [state inv]] eqn:Hv.
  { rewrite (save_progress_refused E _ _ _ _ Hv). exact Hok. }
  destruct Hok as (Hn & Hi & Hb & Hp & Hs). rewrite (save_progress_run E _ _ _ _ _ Hv).
  unfold store_ok, ids_below_seq. simpl. rewrite map_app. simpl.
  repeat split; try assumption.
  - apply NoDup_snoc; [exact Hp|]. intros Hin.
    apply in_map_iff in Hin. destruct Hin as (r & Hr & Hin).
    specialize (Hs r Hin). lia.
  - intros r Hr. apply in_app_or in Hr. destruct Hr as [Hr | [<- | []]]; simpl; [|lia].
    specialize (Hs r Hr). lia.
Qed.

Lemma store_ok_delete (E : Env) (pid : string) (req : Request) (p : Payload) (db : DB) :
  store_ok db -> store_ok (snd (delete_progress_route E pid (set_user req p) db)).
Proof.
  intros Hok. destruct (id_of_text E pid) as [e | i] eqn:Hi'.
  { rewrite (delete_progress_route_refused E _ _ _ _ _ Hi'). exact Hok. }
  destruct Hok as (Hn & Hi & Hb & Hp & Hs).
  rewrite (delete_progress_route_run E _ _ _ _ _ Hi').
  unfold store_ok, ids_below_seq. simpl.
  repeat split; try assumption.
  - now apply NoDup_map_filter.
  - intros r Hr. apply filter_In in Hr. now apply Hs.
Qed.

(** Every request keeps the invariant. *)
Lemma app_keeps_store_ok (E : Env) (req : Request) (now : Z) (db : DB) :
  store_ok db -> store_ok (snd (app E req now db)).
Proof.
  intros Hok.
  destruct (protected (call req)) eqn:Hp.
  - destruct (gate_cases E req now db) as [(p & Ha) | [Hr | Hr]];
      try (rewrite (app_rejected E _ _ _ _ Hp Hr); exact Hok).
    unfold app, route.
    destruct (call req) eqn:Hc; try discriminate Hp;
      rewrite (guarded_accepts E _ _ _ _ _ Ha).
    + rewrite logout_run. simpl.
      apply (store_ok_users_map _ db); [|exact Hok]. intros v. apply token_write_keeps.
    + exact Hok.
    + pose proof (store_ok_save E body (set_user req p) db Hok) as H.
      destruct (save_progress E body (set_user req p) db) as [[r|e] d]; exact H.
    + rewrite load_progress_run. exact Hok.
    + pose proof (store_ok_delete E progressId req p db Hok) as H.
      destruct (delete_progress_route E progressId (set_user req p) db) as [[r|e] d];
        exact H.
    + rewrite update_player_run. simpl.
      apply (store_ok_users_map _ db); [|exact Hok]. intros v. apply name_write_keeps.
  - unfold app, route. destruct (call req) eqn:Hc; try discriminate Hp.
    + pose proof (store_ok_sign_up E name password adventurerName now db Hok) as H.
      destruct (sign_up E name password adventurerName now db) as [[r|e] d]; exact H.
    + pose proof (store_ok_login E name password now db Hok) as H.
      destruct (login E name password now db) as [[r|e] d]; exact H.
Qed.

(** Whatever requests are served, in whatever order, from a store in
    which usernames and ids are unique and no id is above its counter,
    the store stays so: no request creates a second account with a
    taken username or reuses an id. *)
Theorem run_keeps_store_ok (E : Env) (reqs : list (Request * Z)) (db : DB) :
  store_ok db -> store_ok (run E reqs db).
Proof.
  revert db. induction reqs as [|[req now] rest IH]; intros db Hok; simpl.
  - exact Hok.
  - apply IH. now apply app_keeps_store_ok.
Qed.

Lemma run_keeps_store_ok_witness :
  store_ok (run Ref.env [ (Ref.astra_sign_up, 1000);
                          (Ref.astra_sign_up, 1001);
                          (Ref.planted_save, 1002);
                          (request (Ref.bearer Ref.astra_token) (DeleteProgress "1"), 1003) ]
                empty_db).
Proof.
  apply (run_keeps_store_ok Ref.env).
  unfold store_ok, ids_below_seq, empty_db; simpl.
  repeat split; try constructor; intros x [].
Defined.

(* ================================================================= *)
(** ** Further properties of the save-game routes *)

Lemma new_save_has_greatest_id_witness :
  let db' := snd (app Ref.env Ref.planted_save 1300 Ref.two_players) in
  let far := request (Ref.bearer Ref.astra_token)
                     (SaveProgress (mkSaveBody 1 2147483648 2 JNull JNull "far")) in
  ids_below_seq db'
  /\ user_progress db'
     = (user_progress Ref.two_players ++ [mkProgress 2 2 1 2 JNull JNull "planted"])%list
  /\ (forall r, In r (user_progress Ref.two_players) -> p_id r < 2)
  /\ app Ref.env far 1300 Ref.two_players = (internal_server_error, Ref.two_players).
Proof.
  assert (Hinv : ids_below_seq Ref.two_players).
  { intros r [<- | []]. simpl. lia. }
  pose proof (new_save_has_greatest_id
                Ref.env Ref.planted_save (mkSaveBody 2 1 2 JNull JNull "planted") 1300
                Ref.two_players (mkPayload 1 "astra") eq_refl eq_refl Hinv) as H1.
  pose proof (new_save_has_greatest_id
                Ref.env
                (request (Ref.bearer Ref.astra_token)
                         (SaveProgress (mkSaveBody 1 2147483648 2 JNull JNull "far")))
                (mkSaveBody 1 2147483648 2 JNull JNull "far") 1300
                Ref.two_players (mkPayload 1 "astra") eq_refl eq_refl Hinv) as H2.
  destruct H1 as (Hb & Hrow & _). destruct H2 as (_ & _ & Hrefused).
  destruct (Hrow JNull JNull eq_refl) as [Hnew Hids].
  split; [exact Hb|]. split; [exact Hnew|]. split; [exact Hids|].
  exact (Hrefused (Ref.pg_error "value out of range for type integer") eq_refl).
Defined.


Lemma load_progress_app (E : Env) (req : Request) (now : Z) (db : DB) (p : Payload) :
  call req = LoadProgress ->
  accepts E req now db p ->
  app E req now db
  = (match order_by_id_desc (owned_by (userId p) db) with
     | [] => no_saved_game
     | latest :: _ =>
         res_status_json 200 (JObj [("savedGameData", progress_json latest)])
     end, db).
Proof.
  intros Hc Ha. unfold app, route. rewrite Hc.
  rewrite (guarded_accepts E _ _ _ _ _ Ha), load_progress_run. reflexivity.
Qed.




Lemma delete_progress_app
    (E : Env) (req : Request) (pid : string) (i : Z) (now : Z) (db : DB) (p : Payload) :
  call req = DeleteProgress pid ->
  accepts E req now db p ->
  id_of_text E pid = inr i ->
  app E req now db
  = (if negb (Nat.eqb (List.length (filter (delete_matches i (userId p))
                                           (user_progress db))) 1)
     then not_found_or_unauthorized
     else res_status_json 200
            (JObj [("message", JStr "Saved game deleted successfully.")]),
     mkDB (users db) (users_id_seq db)
          (filter (fun r => negb (delete_matches i (userId p) r)) (user_progress db))
          (user_progress_id_seq db)).
Proof.
  intros Hc Ha Hi. unfold app, route. rewrite Hc.
  rewrite (guarded_accepts E _ _ _ _ _ Ha), (delete_progress_route_run E _ _ _ _ _ Hi).
  reflexivity.
Qed.

Lemma delete_progress_app_refused
    (E : Env) (req : Request) (pid : string) (e : Error) (now : Z) (db : DB) (p : Payload) :
  call req = DeleteProgress pid ->
  accepts E req now db p ->
  id_of_text E pid = inl e ->
  app E req now db = (internal_server_error, db).
Proof.
  intros Hc Ha Hi. unfold app, route. rewrite Hc.
  rewrite (guarded_accepts E _ _ _ _ _ Ha), (delete_progress_route_refused E _ _ _ _ _ Hi).
  reflexivity.
Qed.

Lemma delete_matches_own (r : ProgressRow) :
  delete_matches (p_id r) (p_user_id r) r = true.
Proof. unfold delete_matches. now rewrite !Z.eqb_refl. Qed.

(** With unique ids, the DELETE for a row of the caller returns that
    row alone. *)
Lemma filter_own_row (l : list ProgressRow) (r : ProgressRow) :
  NoDup (map p_id l) ->
  In r l ->
  filter (delete_matches (p_id r) (p_user_id r)) l = [r].
Proof.
  induction l as [|a l IH]; simpl; intros Hnd Hin; [now elim Hin|].
  apply NoDup_cons_iff in Hnd. destruct Hnd as [Ha Hnd].
  destruct Hin as [-> | Hin].
  - rewrite delete_matches_own. f_equal. apply filter_none. intros x Hx.
    apply delete_matches_false. intros Heq. exfalso. apply Ha.
    rewrite <- Heq. now apply in_map.
  - rewrite delete_matches_false; [now apply IH|].
    intros Heq. exfalso. apply Ha. rewrite Heq. now apply in_map.
Qed.

Lemma same_id_same_row (l : list ProgressRow) (x y : ProgressRow) :
  NoDup (map p_id l) -> In x l -> In y l -> p_id x = p_id y -> x = y.
Proof.
  induction l as [|a l IH]; simpl; intros Hnd Hx Hy Heq; [now elim Hx|].
  apply NoDup_cons_iff in Hnd. destruct Hnd as [Ha Hnd].
  destruct Hx as [-> | Hx], Hy as [-> | Hy]; auto.
  - exfalso. apply Ha. rewrite Heq. now apply in_map.
  - exfalso. apply Ha. rewrite <- Heq. now apply in_map.
Qed.

(** delete-progress on a save of the caller, [progressId] reading as
    that save's id and ids being unique: the answer is 200 'Saved game
    deleted successfully.', that save is gone and every other save, of
    any owner, is still there; the users are untouched. *)
Theorem delete_progress_own
    (E : Env) (req : Request) (pid : string) (now : Z) (db : DB) (p : Payload)
    (r : ProgressRow) :
  call req = DeleteProgress pid ->
  id_of_text E pid = inr (p_id r) ->
  accepts E req now db p ->
  NoDup (map p_id (user_progress db)) ->
  In r (user_progress db) ->
  p_user_id r = userId p ->
  let db' := snd (app E req now db) in
  fst (app E req now db)
  = res_status_json 200 (JObj [("message", JStr "Saved game deleted successfully.")])
  /\ (forall x, In x (user_progress db') <-> In x (user_progress db) /\ x <> r)
  /\ users db' = users db.
Proof.
  intros Hc Hi Ha Hnd Hin Hown db'. unfold db'.
  rewrite (delete_progress_app E _ _ _ _ _ _ Hc Ha Hi). rewrite <- Hown.
  rewrite (filter_own_row _ _ Hnd Hin). simpl.
  split; [reflexivity|]. split; [|reflexivity].
  intros x. rewrite filter_In. split.
  - intros [Hx Hm]. split; [exact Hx|]. intros ->.
    rewrite delete_matches_own in Hm. discriminate.
  - intros [Hx Hne]. split; [exact Hx|].
    destruct (delete_matches (p_id r) (p_user_id r) x) eqn:Hm; [|reflexivity].
    exfalso. apply Hne. unfold delete_matches in Hm.
    apply andb_true_iff in Hm. destruct Hm as [Hid _]. apply Z.eqb_eq in Hid.
    exact (same_id_same_row _ _ _ Hnd Hx Hin Hid).
Qed.

Lemma delete_progress_own_witness :
  let r := mkProgress 1 2 1 3 (JObj [("hp", JNum 9)]) (JObj [("lamp", JNum 1)]) "bryn-1" in
  let req := request (Ref.bearer Ref.bryn_token) (DeleteProgress "1") in
  let db' := snd (app Ref.env req 1500 Ref.three_saves) in
  fst (app Ref.env req 1500 Ref.three_saves)
  = res_status_json 200 (JObj [("message", JStr "Saved game deleted successfully.")])
  /\ (forall x, In x (user_progress db') <-> In x (user_progress Ref.three_saves) /\ x <> r)
  /\ users db' = users Ref.three_saves.
Proof.
  apply (delete_progress_own
           Ref.env (request (Ref.bearer Ref.bryn_token) (DeleteProgress "1")) "1" 1500
           Ref.three_saves (mkPayload 2 "bryn")
           (mkProgress 1 2 1 3 (JObj [("hp", JNum 9)]) (JObj [("lamp", JNum 1)]) "bryn-1")
           eq_refl eq_refl eq_refl).
  - simpl. repeat constructor; simpl; intuition discriminate.
  - left. reflexivity.
  - reflexivity.
Defined.

Lemma filter_filter_implies {A : Type} (f g : A -> bool) (l : list A) :
  (forall x, f x = true -> g x = true) -> filter f (filter g l) = filter f l.
Proof.
  intros H. induction l as [|a l IH]; simpl; [reflexivity|].
  destruct (g a) eqn:Hg; simpl.
  - rewrite IH. reflexivity.
  - destruct (f a) eqn:Hf; [|exact IH]. rewrite (H a Hf) in Hg. discriminate.
Qed.

(** The saves of an owner are out of reach of everybody else's
    requests, save-progress apart: a request that is not a
    save-progress and is not authenticated as that owner leaves the
    owner's saves exactly as they were. *)
Theorem other_requests_keep_saves
    (E : Env) (req : Request) (now : Z) (db : DB) (owner : Z) :
  (forall body, call req <> SaveProgress body) ->
  (forall p, accepts E req now db p -> userId p <> owner) ->
  owned_by owner (snd (app E req now db)) = owned_by owner db.
Proof.
  intros Hns Hother.
  destruct (protected (call req)) eqn:Hp.
  - destruct (gate_cases E req now db) as [(p & Ha) | [Hr | Hr]];
      try (rewrite (app_rejected E _ _ _ _ Hp Hr); reflexivity).
    specialize (Hother p Ha).
    destruct (call req) eqn:Hc; try discriminate Hp.
    + rewrite (logout_app E _ _ _ _ Hc Ha). reflexivity.
    + rewrite (game_app E _ _ _ _ Hc Ha). reflexivity.
    + now elim (Hns body).
    + rewrite (load_progress_app E _ _ _ _ Hc Ha). reflexivity.
    + destruct (id_of_text E progressId) as [e | i] eqn:Hi.
      { rewrite (delete_progress_app_refused E _ _ _ _ _ _ Hc Ha Hi). reflexivity. }
      rewrite (delete_progress_app E _ _ _ _ _ _ Hc Ha Hi). unfold owned_by. simpl.
      apply filter_filter_implies. intros x Hx. apply Z.eqb_eq in Hx.
      rewrite delete_matches_false; [reflexivity|]. intros _. congruence.
    + unfold app, route. rewrite Hc.
      rewrite (guarded_accepts E _ _ _ _ _ Ha), update_player_run. reflexivity.
  - unfold app, route. destruct (call req) eqn:Hc; try discriminate Hp.
    + destruct (username_taken name db) eqn:Ht.
      * rewrite (sign_up_taken E _ password adventurerName now _ Ht). reflexivity.
      * rewrite (sign_up_fresh E _ password adventurerName now _ Ht). reflexivity.
    + destruct (login_outcome E name password now db) as [(u & Hf & Hpw) | Hfail].
      * rewrite (login_success E _ _ now _ _ Hf Hpw). reflexivity.
      * destruct Hfail as [Hfail | (u & e & _ & _ & Hthrow)].
        -- rewrite Hfail. reflexivity.
        -- rewrite Hthrow. reflexivity.
Qed.

Lemma other_requests_keep_saves_witness :
  owned_by 2 (snd (app Ref.env (request (Ref.bearer Ref.astra_token) (DeleteProgress "1"))
                       1500 Ref.three_saves))
  = owned_by 2 Ref.three_saves.
Proof.
  apply (other_requests_keep_saves
           Ref.env (request (Ref.bearer Ref.astra_token) (DeleteProgress "1")) 1500
           Ref.three_saves 2).
  - intros body. discriminate.
  - intros p H. vm_compute in H. injection H as <-. discriminate.
Defined.

(** update-player answers 'Saved Adventurer Name successfully.' whether
    or not a row was updated: when no user row has the caller's id, the
    answer is the same and the state is untouched. *)
Theorem update_player_without_row
    (E : Env) (req : Request) (a : string) (now : Z) (db : DB) (p : Payload) :
  call req = UpdatePlayer a ->
  accepts E req now db p ->
  (forall u, In u (users db) -> u_id u <> userId p) ->
  app E req now db
  = (res_json (JObj [("message", JStr "Saved Adventurer Name successfully.")]), db).
Proof.
  intros Hc Ha Hnone. unfold app, route. rewrite Hc.
  rewrite (guarded_accepts E _ _ _ _ _ Ha), update_player_run. f_equal.
  rewrite map_unchanged.
  - destruct db; reflexivity.
  - intros u Hu. specialize (Hnone u Hu). apply Z.eqb_neq in Hnone.
    rewrite Hnone. reflexivity.
Qed.

Lemma update_player_without_row_witness :
  app Ref.env (request (Ref.bearer Ref.bryn_token) (UpdatePlayer "Bee2")) 1500
      Ref.after_sign_up
  = (res_json (JObj [("message", JStr "Saved Adventurer Name successfully.")]),
     Ref.after_sign_up).
Proof.
  apply (update_player_without_row
           Ref.env (request (Ref.bearer Ref.bryn_token) (UpdatePlayer "Bee2")) "Bee2" 1500
           Ref.after_sign_up (mkPayload 2 "bryn") eq_refl eq_refl).
  intros u [<- | []]. simpl. discriminate.
Defined.

(** Deleting the same save a second time, [progressId] reading as the
    save's id and ids being unique: the first delete answers 200, the
    second answers the 404 of a save that is not there and changes
    nothing. *)
Theorem delete_progress_twice
    (E : Env) (req : Request) (pid : string) (t1 t2 : Z) (db : DB) (p : Payload)
    (r : ProgressRow) :
  call req = DeleteProgress pid ->
  id_of_text E pid = inr (p_id r) ->
  accepts E req t1 db p ->
  accepts E req t2 db p ->
  NoDup (map p_id (user_progress db)) ->
  In r (user_progress db) ->
  p_user_id r = userId p ->
  let db1 := snd (app E req t1 db) in
  rsp_status (fst (app E req t1 db)) = 200
  /\ app E req t2 db1 = (not_found_or_unauthorized, db1).
Proof.
  intros Hc Hi Ha1 Ha2 Hnd Hin Hown db1. unfold db1.
  rewrite (delete_progress_app E _ _ _ _ _ _ Hc Ha1 Hi). rewrite <- Hown.
  rewrite (filter_own_row _ _ Hnd Hin). simpl. split; [reflexivity|].
  set (rows := filter _ (user_progress db)).
  set (db' := mkDB _ _ rows _).
  assert (Ha2' : accepts E req t2 db' p).
  { apply accepts_iff_verified. now apply accepts_iff_verified in Ha2. }
  rewrite (delete_progress_app E _ _ _ _ _ _ Hc Ha2' Hi). rewrite <- Hown.
  assert (Hgone : forall x, In x (user_progress db') ->
                            delete_matches (p_id r) (p_user_id r) x = false).
  { intros x Hx. unfold db', rows in Hx. simpl in Hx. apply filter_In in Hx.
    destruct Hx as [_ Hx]. now apply negb_true_iff in Hx. }
  rewrite (filter_none _ _ Hgone). simpl. f_equal.
  rewrite filter_all; [reflexivity|].
  intros x Hx. now rewrite (Hgone x Hx).
Qed.

Lemma delete_progress_twice_witness :
  let req := request (Ref.bearer Ref.bryn_token) (DeleteProgress "1") in
  let db1 := snd (app Ref.env req 1500 Ref.three_saves) in
  rsp_status (fst (app Ref.env req 1500 Ref.three_saves)) = 200
  /\ app Ref.env req 1501 db1 = (not_found_or_unauthorized, db1).
Proof.
  apply (delete_progress_twice
           Ref.env (request (Ref.bearer Ref.bryn_token) (DeleteProgress "1")) "1" 1500 1501
           Ref.three_saves (mkPayload 2 "bryn")
           (mkProgress 1 2 1 3 (JObj [("hp", JNum 9)]) (JObj [("lamp", JNum 1)]) "bryn-1")
           eq_refl eq_refl eq_refl eq_refl).
  - simpl. repeat constructor; simpl; intuition discriminate.
  - left. reflexivity.
  - reflexivity.
Defined.
